(** * InsightAI: a shallow embedding of the front-end state containers and of
      the retrieval engine they talk to.

    Part I holds the definitions, one module per source unit; Part II holds
    the theorems.  JavaScript strings are [string], [null] is [None], an
    object literal used as a table is a [gmap string _] of its own
    properties, and every React state setter is written as the function from
    the captured state to the next state. *)

From stdpp Require Import gmap strings list fin_maps.
From Stdlib Require Import Ascii QArith.

Close Scope Q_scope.
Local Open Scope string_scope.
Local Open Scope list_scope.

(* ===================================================================== *)
(** * Part I: definitions                                                  *)
(* ===================================================================== *)

(** ** The payload of [POST /api/insights] as the pages consume it
    (ResultsPage.jsx: [codebase.insights.summary], [.insights], [.visualizations]). *)
Module Payload.

Inductive ConfigValue :=
| CNumber (n : Z)
| CBoolean (b : bool).

Record Insight := {
  question : string;
  answer : string;
  task_type : string
}.

Record VisualizationEntry := {
  type : string;
  data : string;
  config : list (string * ConfigValue);
  task_id : string
}.

Record InsightsData := {
  insights : list (string * Insight);
  visualizations : list VisualizationEntry;
  summary : string
}.

End Payload.

(** ** context/CodebaseContext: [CodebaseProvider] *)
Module CodebaseContext.

(** The object held by [useState]: [status] is a plain JavaScript string. *)
Record Codebase := {
  id : option string;
  status : string;
  error : option string;
  insights : option Payload.InsightsData;
  name : string;
  uploadType : option string
}.

(** The argument of [useState] and of [resetCodebase]. *)
Definition initialCodebase : Codebase :=
  {| id := None; status := "idle"; error := None; insights := None;
     name := ""; uploadType := None |}.

(** Each callback spreads the [codebase] it closed over and overrides the
    listed fields; the result is the value handed to [setCodebase]. *)
Definition startUpload (codebase : Codebase) (name' uploadType' : string) : Codebase :=
  {| id := id codebase;
     status := "uploading";
     error := None;
     insights := insights codebase;
     name := name';
     uploadType := Some uploadType' |}.

Definition uploadComplete (codebase : Codebase) (id' : string) : Codebase :=
  {| id := Some id';
     status := "processing";
     error := error codebase;
     insights := insights codebase;
     name := name codebase;
     uploadType := uploadType codebase |}.

Definition uploadError (codebase : Codebase) (error' : string) : Codebase :=
  {| id := id codebase;
     status := "error";
     error := Some error';
     insights := insights codebase;
     name := name codebase;
     uploadType := uploadType codebase |}.

Definition setInsights (codebase : Codebase) (insights' : Payload.InsightsData) : Codebase :=
  {| id := id codebase;
     status := "ready";
     error := error codebase;
     insights := Some insights';
     name := name codebase;
     uploadType := uploadType codebase |}.

Definition resetCodebase (_ : Codebase) : Codebase :=
  {| id := None; status := "idle"; error := None; insights := None;
     name := ""; uploadType := None |}.

(** The five operations the provider exports, as one call each. *)
Inductive Operation :=
| StartUpload (name' uploadType' : string)
| UploadComplete (id' : string)
| UploadError (error' : string)
| SetInsights (insights' : Payload.InsightsData)
| ResetCodebase.

Definition perform (codebase : Codebase) (op : Operation) : Codebase :=
  match op with
  | StartUpload n u => startUpload codebase n u
  | UploadComplete i => uploadComplete codebase i
  | UploadError e => uploadError codebase e
  | SetInsights i => setInsights codebase i
  | ResetCodebase => resetCodebase codebase
  end.

(** A callback is created at a render and spreads the [codebase] of that
    render, however many [setCodebase] calls happened since (an [async]
    handler or a timer keeps calling the callbacks it captured).  A call is
    the operation together with the age of the render it was captured at:
    0 is the latest render, 1 the one before, and so on. *)
Record Call := {
  age : nat;
  operation : Operation
}.

(** The record a callback of the given age closed over; [history] holds the
    records stored so far, newest first, and starts as [[initialCodebase]]. *)
Definition captured (history : list Codebase) (age : nat) : Codebase :=
  nth age history initialCodebase.

Fixpoint replay (history : list Codebase) (calls : list Call) : list Codebase :=
  match calls with
  | [] => history
  | call :: rest =>
      replay (perform (captured history (age call)) (operation call) :: history) rest
  end.

(** The statuses a reader of the context sees, oldest first. *)
Definition statusesSeen (calls : list Call) : list string :=
  rev (map status (replay [initialCodebase] calls)).

(** The record held after all the calls. *)
Definition current (calls : list Call) : Codebase :=
  captured (replay [initialCodebase] calls) 0.

(** [UploadPage.handleSubmit]: [startUpload] and then, after the awaited
    request, [uploadComplete] or [uploadError], all three taken from the one
    render in which the form was submitted. *)
Definition handleSubmit (name' uploadType' : string) (outcome : string + string) : list Call :=
  [ {| age := 0; operation := StartUpload name' uploadType' |};
    {| age := 1;
       operation := match outcome with
                    | inl codebase_id => UploadComplete codebase_id
                    | inr detail => UploadError detail
                    end |} ].

(** The comment at the [status] field: idle, uploading, processing, ready, error. *)
Definition statusValues : list string :=
  ["idle"; "uploading"; "processing"; "ready"; "error"].

(** Position of a status in the progression
    idle -> uploading -> processing -> {ready | error}. *)
Definition stage (s : string) : nat :=
  if String.eqb s "idle" then 0
  else if String.eqb s "uploading" then 1
  else if String.eqb s "processing" then 2
  else 3.

(** A list of statuses that never steps to an earlier stage. *)
Fixpoint neverBackward (prev : string) (later : list string) : Prop :=
  match later with
  | [] => True
  | s :: rest => (stage prev <= stage s)%nat /\ neverBackward s rest
  end.

(** The status literal each operation writes. *)
Definition writes (op : Operation) : string :=
  match op with
  | StartUpload _ _ => "uploading"
  | UploadComplete _ => "processing"
  | UploadError _ => "error"
  | SetInsights _ => "ready"
  | ResetCodebase => "idle"
  end.

(** The progression as a reader of the context would check it. *)
Definition progressesMonotonically (calls : list Call) : Prop :=
  match statusesSeen calls with
  | [] => True
  | first :: later => neverBackward first later
  end.

(** The reading "a message is present only next to a failure". *)
Definition errorOnlyWithFailure (codebase : Codebase) : Prop :=
  error codebase <> None -> status codebase = "error".

(** A record whose status is one of the five values and whose message, if
    any, satisfies [Q]. *)
Definition wellFormed (Q : string -> Prop) (codebase : Codebase) : Prop :=
  In (status codebase) statusValues /\ forall m, error codebase = Some m -> Q m.

End CodebaseContext.

(** ** context/RoleContext: [RoleProvider] *)
Module RoleContext.

Record Role := {
  id : string;
  name : string;
  description : string
}.

(** The four [useState] cells of the provider. *)
Record RoleState := {
  roles : list Role;
  selectedRole : string;
  loadingRoles : bool;
  error : option string
}.

Definition defaultRoles : list Role :=
  [ {| id := "project_manager"; name := "Project Manager";
       description := "Focus on high-level architecture, dependencies, and project structure." |};
    {| id := "frontend_developer"; name := "Frontend Developer";
       description := "Focus on UI components, state management, and frontend architecture." |};
    {| id := "backend_developer"; name := "Backend Developer";
       description := "Focus on API design, data models, and server architecture." |};
    {| id := "ai_ml_engineer"; name := "AI/ML Engineer";
       description := "Focus on ML models, data pipelines, and AI architecture." |} ].

Definition initialState : RoleState :=
  {| roles := defaultRoles; selectedRole := "project_manager";
     loadingRoles := false; error := None |}.

(** [roles.some(role => role.id === roleId)] *)
Definition some {A} (p : A -> bool) (l : list A) : bool := existsb p l.

(** [changeRole]: the returned boolean and the state after the call. *)
Definition changeRole (st : RoleState) (roleId : string) : bool * RoleState :=
  if some (fun role => String.eqb (id role) roleId) (roles st) then
    (true, {| roles := roles st; selectedRole := roleId;
              loadingRoles := loadingRoles st; error := error st |})
  else (false, st).

(** [roles.find(role => role.id === selectedRole) || roles[0]] *)
Definition getCurrentRole (st : RoleState) : option Role :=
  match find (fun role => String.eqb (id role) (selectedRole st)) (roles st) with
  | Some r => Some r
  | None => head (roles st)
  end.

End RoleContext.

(** ** components/visualizations/index.js *)
Module Visualizations.

(** The function values that can end up as the element type. *)
Inductive Component :=
| FolderTree
| DependencyGraph
| Placeholder (text : string)
| UnknownType (type : string).

(** What a property read of the table can evaluate to.  [visualizationMap] is
    an object literal, so its prototype is [Object.prototype] and a read that
    misses the own properties continues there. *)
Inductive Value :=
| Undefined
| Function (c : Component)
| ObjectBuiltin (property : string)
| ObjectPrototype.

(** The own properties of [visualizationMap]. *)
Definition visualizationMap : gmap string Component :=
  list_to_map
    [ ("folder_tree", FolderTree);
      ("dependency_graph", DependencyGraph);
      ("tech_stack", Placeholder "Tech Stack Visualization (Placeholder)");
      ("component_hierarchy", Placeholder "Component Hierarchy Visualization (Placeholder)");
      ("api_flow", Placeholder "API Flow Visualization (Placeholder)");
      ("entity_relationship", Placeholder "Entity Relationship Visualization (Placeholder)");
      ("api_documentation", Placeholder "API Documentation Visualization (Placeholder)");
      ("flow_diagram", Placeholder "Flow Diagram Visualization (Placeholder)");
      ("model_architecture", Placeholder "Model Architecture Visualization (Placeholder)");
      ("pipeline_flow", Placeholder "Pipeline Flow Visualization (Placeholder)") ].

(** The function-valued properties every object inherits from
    [Object.prototype] (ECMAScript, with Annex B). *)
Definition objectPrototypeFunctions : list string :=
  [ "constructor"; "hasOwnProperty"; "isPrototypeOf"; "propertyIsEnumerable";
    "toLocaleString"; "toString"; "valueOf";
    "__defineGetter__"; "__defineSetter__"; "__lookupGetter__"; "__lookupSetter__" ].

(** [object[key]] for an object literal with the given own properties. *)
Definition getProperty (own : gmap string Component) (key : string) : Value :=
  match own !! key with
  | Some c => Function c
  | None =>
      if String.eqb key "__proto__" then ObjectPrototype
      else if existsb (String.eqb key) objectPrototypeFunctions then ObjectBuiltin key
      else Undefined
  end.

(** JavaScript truthiness: functions and objects are truthy, [undefined] is not. *)
Definition truthy (v : Value) : bool :=
  match v with
  | Undefined => false
  | _ => true
  end.

(** [a || b] *)
Definition orElse (a b : Value) : Value := if truthy a then a else b.

Record Props := {
  data : string;
  config : list (string * Payload.ConfigValue)
}.

(** The JSX element [<VisualizationComponent data={data} config={config} />]. *)
Record Element := {
  elementType : Value;
  props : Props
}.

Definition Visualization (type : string) (data' : string)
    (config' : list (string * Payload.ConfigValue)) : Element :=
  let VisualizationComponent :=
    orElse (getProperty visualizationMap type) (Function (UnknownType type)) in
  {| elementType := VisualizationComponent;
     props := {| data := data'; config := config' |} |}.

(** The dispatcher as the comment above it describes it: the mapped
    component for a key of the table, the fallback for every other type. *)
Definition dispatchesAsDocumented (type : string) : Prop :=
  forall d c,
    elementType (Visualization type d c) =
      match visualizationMap !! type with
      | Some component => Function component
      | None => Function (UnknownType type)
      end.

End Visualizations.

(** ** services/api.js and pages/ResultsPage.jsx: failed requests and the
    results page *)
Module Api.

(** [err.response?.data?.detail] walks these optional layers. *)
Record ErrorData := { detail : option string }.
Record ErrorResponse := { errorData : option ErrorData }.
Record AxiosError := { response : option ErrorResponse }.

End Api.

Module ResultsPage.

(** The two [useState] cells of the page. *)
Record PageState := {
  loading : bool;
  error : string
}.

(** [a?.b]: a missing layer makes the whole chain [undefined]. *)
Definition optionalChain {A B} (a : option A) (f : A -> option B) : option B :=
  match a with
  | Some x => f x
  | None => None
  end.

(** [value || fallback] on a string that may be [undefined]: the empty
    string is falsy too. *)
Definition orDefault (value : option string) (fallback : string) : string :=
  match value with
  | Some s => if String.eqb s "" then fallback else s
  | None => fallback
  end.

(** The object the page's effect hands to [setInsights] when its timer fires. *)
Definition mockInsights : Payload.InsightsData :=
  {| Payload.insights :=
       [ ("project_structure",
          {| Payload.question := "What is the overall structure of this project?";
             Payload.answer := "This project has a typical structure with frontend (React), backend (FastAPI), and support modules. The main components are organized into logical directories including /frontend for the UI, /backend for API services, /rag for retrieval-augmented generation pipeline, /parsers for code analysis, and /agents for AI coordination logic.";
             Payload.task_type := "structure" |});
         ("dependencies",
          {| Payload.question := "What are the main dependencies?";
             Payload.answer := "Key dependencies include: LangChain for RAG pipelines, FAISS for vector storage, Tree-sitter for code parsing, React with Tailwind for frontend, FastAPI for backend services, and various Python utilities.";
             Payload.task_type := "dependencies" |});
         ("tech_stack",
          {| Payload.question := "What technologies are used?";
             Payload.answer := "The project uses Python (FastAPI, LangChain) for backend services, JavaScript/React for frontend, Tree-sitter for code parsing, and integrates with vector databases for efficient retrieval.";
             Payload.task_type := "technology" |}) ];
     Payload.visualizations :=
       [ {| Payload.type := "folder_tree";
            Payload.data := "Visualization data for project structure...";
            Payload.config := [("max_depth", Payload.CNumber 3)];
            Payload.task_id := "project_structure" |};
         {| Payload.type := "dependency_graph";
            Payload.data := "Visualization data for dependencies...";
            Payload.config := [("show_versions", Payload.CBoolean true)];
            Payload.task_id := "dependencies" |} ];
     Payload.summary := "This is a well-structured modern application that uses a RAG (Retrieval-Augmented Generation) architecture to provide code insights. It has clear separation of concerns between frontend, backend, and AI components. The codebase is organized for extensibility and maintainability." |}.

(** The effect as it stands: [fetchInsights] is defined but not called; for
    a truthy [codebaseId] a timer stores the mock data and clears [loading]. *)
Definition effect (codebaseId : string) (page : PageState)
    (codebase : CodebaseContext.Codebase)
    : PageState * CodebaseContext.Codebase :=
  if String.eqb codebaseId "" then (page, codebase)
  else ({| loading := false; error := error page |},
        CodebaseContext.setInsights codebase mockInsights).

(** The branches of the page's [return]: spinner, error box, "No Data"
    box, or the insights with their executive summary. *)
Inductive View :=
| Spinner
| ErrorBox (message : string)
| NoData
| Results (shown : Payload.InsightsData).

Definition render (page : PageState) (codebase : CodebaseContext.Codebase) : View :=
  if loading page then Spinner
  else if negb (String.eqb (error page) "") then ErrorBox (error page)
  else match CodebaseContext.insights codebase with
       | None => NoData
       | Some shown => Results shown
       end.

End ResultsPage.

(** ** rag/templates and the role template store
    (the template file is in the sources; rag/role_manager.py, which loads
    it, is not, and is written after section 4.5 of the specification) *)
Module RoleStore.

Record VisualizationSpec := {
  vizType : string;
  vizConfig : list (string * Payload.ConfigValue)
}.

(** One entry of [analysis_tasks] in a template file. *)
Record AnalysisTask := {
  id : string;
  type : string;
  question : string;
  visualization : option VisualizationSpec
}.

(** The keys of a template file such as [project_manager.json]. *)
Record RoleTemplate := {
  roleId : string;
  name : string;
  description : string;
  version : string;
  prompt_template : string;
  summary_template : string;
  analysis_tasks : list AnalysisTask
}.

(** rag/templates/project_manager.json; the line feed is character 10. *)
Definition nl : string := String (Ascii.ascii_of_nat 10) "".

Definition project_manager : RoleTemplate :=
  {| roleId := "project_manager";
     name := "Project Manager";
     description := "Template for Project Manager role";
     version := "1.0.0";
     prompt_template :=
       "You are analyzing a codebase for a Project Manager. Focus on high-level architecture, dependencies, and project structure."
       ++ nl ++ nl ++ "Context information is below:" ++ nl
       ++ "---------------------" ++ nl ++ "{context}" ++ nl
       ++ "---------------------" ++ nl ++ nl
       ++ "Given the above context, answer the following question about {focus}:"
       ++ nl ++ "{question}";
     summary_template :=
       "Provide a concise summary of the codebase from a project manager perspective. Focus on {focus}.";
     analysis_tasks :=
       [ {| id := "project_structure"; type := "structure";
            question := "What is the overall structure of this project? Identify main components and their relationships.";
            visualization :=
              Some {| vizType := "folder_tree";
                      vizConfig := [("max_depth", Payload.CNumber 3)] |} |};
         {| id := "dependencies"; type := "dependencies";
            question := "What are the main dependencies of this project and how are they used?";
            visualization :=
              Some {| vizType := "dependency_graph";
                      vizConfig := [("show_versions", Payload.CBoolean true)] |} |};
         {| id := "complexity"; type := "complexity";
            question := "Which parts of the codebase are most complex and might need refactoring or additional resources?";
            visualization := None |};
         {| id := "tech_stack"; type := "technology";
            question := "What technologies and frameworks are used in this project?";
            visualization :=
              Some {| vizType := "tech_stack";
                      vizConfig := [("grouped", Payload.CBoolean true)] |} |} ] |}.

(** The template shape printed in the rag README. *)
Definition readme_example_prompt : string :=
  "As a {role}, analyze {focus} and provide insights about {task}".

(** A template string cut into literal text and [{name}] placeholders. *)
Inductive Segment :=
| Text (s : string)
| Hole (placeholder : string).

(** Modelled from the spec: the template scanner of rag/role_manager.py is
    not in the sources; "string with named placeholders" is read as
    brace-delimited names, and an opening brace that is never closed stays
    literal text.  [inHole] says whether the scan is inside braces and [acc]
    holds the characters read since the last boundary. *)
Fixpoint scan (s : string) (inHole : bool) (acc : string) : list Segment :=
  match s with
  | EmptyString => if inHole then [Text ("{" ++ acc)] else [Text acc]
  | String c rest =>
      if inHole then
        if Ascii.eqb c "}"%char then Hole acc :: scan rest false ""
        else scan rest true (acc ++ String c "")
      else
        if Ascii.eqb c "{"%char then Text acc :: scan rest true ""
        else scan rest false (acc ++ String c "")
  end.

Definition segments (template : string) : list Segment := scan template false "".

Fixpoint holes (segs : list Segment) : list string :=
  match segs with
  | [] => []
  | Hole p :: rest => p :: holes rest
  | Text _ :: rest => holes rest
  end.

(** The placeholder names of a template, in order of occurrence. *)
Definition placeholders (template : string) : list string := holes (segments template).

(** The named placeholders of a prompt template (spec, data model). *)
Definition requiredPlaceholders : list string := ["context"; "focus"; "question"].

Definition memberb (x : string) (l : list string) : bool := existsb (String.eqb x) l.

Definition sameSetb (l1 l2 : list string) : bool :=
  forallb (fun x => memberb x l2) l1 && forallb (fun x => memberb x l1) l2.

Fixpoint distinctb (l : list string) : bool :=
  match l with
  | [] => true
  | x :: rest => negb (memberb x rest) && distinctb rest
  end.

(** Modelled from the spec: the validation of rag/role_manager.py is not in
    the sources.  A template is kept when its placeholder set is the named
    one, its task ids are pairwise distinct, and its id is a registered
    role. *)
Definition validate (registered : list string) (t : RoleTemplate) : bool :=
  sameSetb (placeholders (prompt_template t)) requiredPlaceholders
  && distinctb (map id (analysis_tasks t))
  && memberb (roleId t) registered.

(** Modelled from the spec: the loader of rag/role_manager.py is not in the
    sources.  Loading keeps the valid templates in a table keyed by id (the
    first file wins when two carry the same id); nothing is validated after
    loading. *)
Definition load (registered : list string) (files : list RoleTemplate)
    : gmap string RoleTemplate :=
  list_to_map (map (fun t => (roleId t, t)) (filter (fun t => validate registered t = true) files)).

Inductive StoreError := NotFound.

(** Modelled from the spec: [get(roleId) -> RoleTemplate | NotFound]. *)
Definition get (store : gmap string RoleTemplate) (role : string)
    : RoleTemplate + StoreError :=
  match store !! role with
  | Some t => inl t
  | None => inr NotFound
  end.

(** Modelled from the spec: [list() -> [RoleTemplate]]. *)
Definition listTemplates (store : gmap string RoleTemplate) : list RoleTemplate :=
  map snd (map_to_list store).

(** The invariant of a loaded template. *)
Definition wellFormedTemplate (t : RoleTemplate) : Prop :=
  (forall p, In p (placeholders (prompt_template t)) <-> In p requiredPlaceholders)
  /\ NoDup (map id (analysis_tasks t)).

End RoleStore.

(** ** The chunks and the similarity index
    (rag/pipeline.py is not in the sources; every definition of this module
    follows the data model of the specification) *)
Module Retrieval.

(** Modelled from the spec: the embedding of a chunk, "fixed-length numeric
    vector"; exact rationals stand for the numeric components. *)
Definition Vector := list Q.

(** Modelled from the spec: a chunk as the data model lists it. *)
Record Chunk := {
  id : nat;
  sourceFile : string;
  ordinal : nat;
  text : string;
  embedding : Vector
}.

Definition VectorIndex := list Chunk.

End Retrieval.

(** ** The ingestion pipeline: chunking under worker interleaving
    (the pipeline is not in the sources; every definition of this module
    follows section 4.3 of the specification) *)
Module Ingestion.
Import Retrieval.

(** The fixed chunk-size/overlap policy. *)
Record ChunkingPolicy := {
  chunkSize : nat;
  overlap : nat
}.

Definition dropChars (n : nat) (s : string) : string :=
  String.substring n (String.length s - n) s.

(** Windows of [size] characters whose starts are [step] apart; [fuel]
    bounds the number of windows. *)
Fixpoint windowsFrom (fuel size step : nat) (s : string) : list string :=
  match fuel with
  | O => []
  | S fuel' =>
      if String.eqb s "" then []
      else String.substring 0 size s
           :: (if Nat.leb (String.length s) size then []
               else windowsFrom fuel' size step (dropChars step s))
  end.

(** Modelled from the spec: the chunker of the ingestion pipeline is not in
    the sources; this is its fallback, "fixed-size sliding windows with
    overlap".  Consecutive windows share [overlap] characters and the step
    is at least one character, so one unit of fuel per character is enough. *)
Definition slidingWindows (policy : ChunkingPolicy) (content : string) : list string :=
  windowsFrom (String.length content) (chunkSize policy)
              (Nat.max 1 (chunkSize policy - overlap policy)) content.

(** Modelled from the spec: what the pool of workers has produced so far: the next free chunk id
    (one counter shared by all workers), for each file the ordinal its
    worker will emit next, and the chunks in the order they arrived. *)
Record RunState := {
  nextId : nat;
  cursors : gmap string nat;
  emitted : list Chunk
}.

Definition cursor (st : RunState) (path : string) : nat :=
  default 0 (cursors st !! path).

(** The texts a file is split into; [split] is the chunking function, a
    function of the content alone. *)
Definition texts (split : string -> list string) (files : gmap string string)
    (path : string) : list string :=
  match files !! path with
  | Some content => split content
  | None => []
  end.

(** Modelled from the spec: one step of the pool; the worker that holds
    [path] emits the next chunk of that file, if any is left. *)
Definition emit (split : string -> list string) (files : gmap string string)
    (st : RunState) (path : string) : RunState :=
  match texts split files path !! cursor st path with
  | None => st
  | Some chunkText =>
      {| nextId := S (nextId st);
         cursors := <[path := S (cursor st path)]> (cursors st);
         emitted := emitted st
                    ++ [ {| id := nextId st; sourceFile := path;
                            ordinal := cursor st path; text := chunkText;
                            embedding := [] |} ] |}
  end.

(** Modelled from the spec: the ingestion pipeline is not in the sources.
    A run is fixed by the id it starts counting from and by the
    interleaving of its workers: the sequence of files whose worker emits
    next. *)
Definition ingest (split : string -> list string) (files : gmap string string)
    (firstId : nat) (interleaving : list string) : RunState :=
  fold_left (emit split files) interleaving
            {| nextId := firstId; cursors := ∅; emitted := [] |}.

(** The chunks of one file, in the order they were emitted. *)
Definition chunksOf (path : string) (st : RunState) : list Chunk :=
  filter (fun c => sourceFile c = path) (emitted st).

(** Ordinal and text of a chunk: what has to be reproducible (ids may differ). *)
Definition view (c : Chunk) : nat * string := (ordinal c, text c).

Definition numbered (l : list string) : list (nat * string) :=
  imap (fun i chunkText => (i, chunkText)) l.

(** A state in which every file's emitted chunks are the first [cursor]
    numbered texts of that file, and no cursor is past the end of its file. *)
Definition consistent (split : string -> list string) (files : gmap string string)
    (st : RunState) : Prop :=
  forall path,
    map view (chunksOf path st) = take (cursor st path) (numbered (texts split files path))
    /\ cursor st path <= length (texts split files path).

(** The worker of [path] got to emit every chunk of the file. *)
Definition finished (split : string -> list string) (files : gmap string string)
    (interleaving : list string) (path : string) : Prop :=
  length (texts split files path) <= length (filter (fun p => p = path) interleaving).

Definition sampleFiles : gmap string string :=
  list_to_map [ ("main.py", "import os"); ("util.py", "def f(): pass") ].

Definition samplePolicy : ChunkingPolicy := {| chunkSize := 4; overlap := 1 |}.

End Ingestion.

(** ** The retrieval and insight orchestrator
    (rag/pipeline.py is not in the sources; every definition of this module
    follows sections 3, 4.6 and 7 of the specification) *)
Module Orchestrator.
Import Retrieval RoleStore.

(** Modelled from the spec: the error taxonomy of the core (section 7). *)
Inductive Error :=
| NotFound
| NotReady
| RoleNotFound
| ParseError
| PluginError
| EmbeddingError
| GenerationError
| IngestionFatalError
| CancelledError.

(** Modelled from the spec: the codebase record of the registry and its
    lifecycle status. *)
Inductive Lifecycle := Idle | Uploading | Processing | Ready | Errored.

Record Codebase := {
  codebaseId : string;
  status : Lifecycle;
  error : option string;
  sourceRoot : string;
  index : option VectorIndex
}.

(** Modelled from the spec: the injected capabilities, [embed(text) ->
    vector] for the query and [generate(prompt) -> text], where [None] is a
    [GenerationError]. *)
Record Capabilities := {
  embed : string -> Vector;
  generate : string -> option string
}.

(** Modelled from the spec: the retrieval contract of section 4.4,
    [search(index, queryVector, k, diversify) -> ordered [Chunk]].  The
    orchestrator takes the search as it is given; how chunks are ranked is
    not its concern. *)
Definition Search := VectorIndex -> Vector -> nat -> bool -> list Chunk.

Record Settings := {
  k : nat;
  diversify : bool;
  maxContextLength : nat
}.

Definition defaultSettings : Settings :=
  {| k := 5; diversify := true; maxContextLength := 4000 |}.

Record InsightResult := {
  taskId : string;
  resultQuestion : string;
  answer : string;
  citedChunkIds : list nat;
  resultVisualization : option VisualizationSpec
}.

(** The states of a run; a finished run is completed, partial or failed. *)
Inductive RunStatus := Pending | Retrieving | Generating | Completed | Partial | Failed.

Record Run := {
  runStatus : RunStatus;
  results : list InsightResult;
  failedTasks : list (string * Error);
  summary : option string;
  failure : option Error
}.

(** Modelled from the spec, step 1: the query is the task's question plus
    the optional focus. *)
Definition buildQuery (task : AnalysisTask) (focus : option string) : string :=
  match focus with
  | Some f => question task ++ " " ++ f
  | None => question task
  end.

(** Modelled from the spec, step 2: retrieval needs a ready codebase whose
    index is there; otherwise the run fails with [NotReady]. *)
Definition retrievable (codebase : Codebase) : VectorIndex + Error :=
  match status codebase, index codebase with
  | Ready, Some vectorIndex => inl vectorIndex
  | _, _ => inr NotReady
  end.

(** Modelled from the spec, step 3: the chunks whose texts fit the context
    bound, dropping from the lowest-ranked end. *)
Fixpoint fitting (budget : nat) (ranked : list Chunk) : list Chunk :=
  match ranked with
  | [] => []
  | c :: rest =>
      if Nat.leb (String.length (text c)) budget
      then c :: fitting (budget - String.length (text c)) rest
      else []
  end.

Fixpoint concatTexts (l : list string) : string :=
  match l with
  | [] => ""
  | s :: rest => s ++ concatTexts rest
  end.

(** A template with its placeholders replaced by the given values. *)
Definition render (template : string) (value : string -> string) : string :=
  concatTexts
    (map (fun seg => match seg with
                     | Text s => s
                     | Hole p => value p
                     end)
         (segments template)).

Definition bindings (context focus question' : string) (placeholder : string) : string :=
  if String.eqb placeholder "context" then context
  else if String.eqb placeholder "focus" then focus
  else if String.eqb placeholder "question" then question'
  else "".

(** One run's collaborators and inputs, shared by every step of the run. *)
Section Collaborators.
Variables (search : Search) (caps : Capabilities) (cfg : Settings).

(** The chunks a task's context is built from, in retrieval rank order. *)
Definition usedChunks (vectorIndex : VectorIndex)
    (focus : option string) (task : AnalysisTask) : list Chunk :=
  fitting (maxContextLength cfg)
    (search vectorIndex (embed caps (buildQuery task focus)) (k cfg) (diversify cfg)).

(** The prompt of a task: the role's prompt template with context, focus
    and question filled in. *)
Definition promptFor (vectorIndex : VectorIndex)
    (role : RoleTemplate) (focus : option string) (task : AnalysisTask) : string :=
  render (prompt_template role)
    (bindings (concatTexts (map text (usedChunks vectorIndex focus task)))
              (default "" focus) (question task)).

Inductive TaskOutcome :=
| Answered (result : InsightResult)
| TaskFailed (task : string) (cause : Error).

(** Modelled from the spec, steps 3 to 5 for one task: render the prompt,
    call generation, and assemble the result with its citations or record
    the failure. *)
Definition executeTask (vectorIndex : VectorIndex)
    (role : RoleTemplate) (focus : option string) (task : AnalysisTask) : TaskOutcome :=
  match generate caps (promptFor vectorIndex role focus task) with
  | Some generated =>
      Answered {| taskId := id task;
                  resultQuestion := question task;
                  answer := generated;
                  citedChunkIds := map Retrieval.id (usedChunks vectorIndex focus task);
                  resultVisualization := visualization task |}
  | None => TaskFailed (id task) GenerationError
  end.

(** Modelled from the spec: the tasks in order, each to its end whatever
    became of the ones before it. *)
Definition executeTasks (vectorIndex : VectorIndex)
    (role : RoleTemplate) (focus : option string) (tasks : list AnalysisTask)
    : list TaskOutcome :=
  map (executeTask vectorIndex role focus) tasks.

Fixpoint answered (outcomes : list TaskOutcome) : list InsightResult :=
  match outcomes with
  | [] => []
  | Answered r :: rest => r :: answered rest
  | TaskFailed _ _ :: rest => answered rest
  end.

Fixpoint failed (outcomes : list TaskOutcome) : list (string * Error) :=
  match outcomes with
  | [] => []
  | Answered _ :: rest => failed rest
  | TaskFailed t e :: rest => (t, e) :: failed rest
  end.

(** Modelled from the spec: the prompt of the summary call, the role's
    summary template followed by the accumulated answers. *)
Definition summaryPrompt (role : RoleTemplate) (focus : option string)
    (answers : list string) : string :=
  render (summary_template role) (bindings "" (default "" focus) "")
  ++ concatTexts (map (fun a => (nl ++ a)%string) answers).

(** Modelled from the spec: the orchestrator of rag/pipeline.py is not in
    the sources.  A codebase that is not ready, or whose index is missing,
    fails the run with [NotReady] before any task.  Otherwise the tasks of
    the role run in order; a generation failure is recorded against its
    task and the run goes on; after the tasks one more generation call,
    seeded with the answers, gives the summary.  The run is completed when
    no task failed and partial when some did. *)
Definition run (codebase : Codebase) (role : RoleTemplate) (focus : option string)
    : Run :=
  match retrievable codebase with
  | inr e =>
      {| runStatus := Failed; results := []; failedTasks := [];
         summary := None; failure := Some e |}
  | inl vectorIndex =>
      let outcomes := executeTasks vectorIndex role focus (analysis_tasks role) in
      {| runStatus := match failed outcomes with [] => Completed | _ => Partial end;
         results := answered outcomes;
         failedTasks := failed outcomes;
         summary := generate caps (summaryPrompt role focus (map answer (answered outcomes)));
         failure := None |}
  end.

(** Whether generation fails on a task of a run over [vectorIndex]. *)
Definition generationFails (vectorIndex : VectorIndex) (role : RoleTemplate)
    (focus : option string) (task : AnalysisTask) : bool :=
  match generate caps (promptFor vectorIndex role focus task) with
  | Some _ => false
  | None => true
  end.

(** The texts generation returns on the tasks it answers, in task order:
    what the claim calls the successful answers. *)
Definition successfulAnswers (vectorIndex : VectorIndex) (role : RoleTemplate)
    (focus : option string) (tasks : list AnalysisTask) : list string :=
  omap (fun task => generate caps (promptFor vectorIndex role focus task)) tasks.

End Collaborators.

(** A ready codebase over a three-chunk index, a search that returns the
    first [k] chunks of the index, and a generation capability that times
    out on the complexity question only. *)
Definition sampleIndex : VectorIndex :=
  [ {| Retrieval.id := 0; sourceFile := "a.py"; ordinal := 0; text := "x = 1";
       embedding := [1%Q] |};
    {| Retrieval.id := 1; sourceFile := "b.py"; ordinal := 0; text := "x = 1";
       embedding := [1%Q] |};
    {| Retrieval.id := 2; sourceFile := "c.py"; ordinal := 0; text := "y = 2";
       embedding := [(-1)%Q] |} ].

Definition sampleCodebase : Codebase :=
  {| codebaseId := "cb-1"; status := Ready; error := None;
     sourceRoot := "/data/cb-1"; index := Some sampleIndex |}.

Definition sampleSearch : Search :=
  fun vectorIndex _ count _ => take count vectorIndex.

Definition sampleCapabilities : Capabilities :=
  {| embed := fun _ => [1%Q];
     generate := fun prompt =>
       match String.index 0 "most complex" prompt with
       | Some _ => None
       | None => Some "ok"
       end |}.

End Orchestrator.

(** ** context/RoleContext and pages/HomePage: sequences of role changes *)
Module RoleSelection.
Import RoleContext.

(** The state after a call of [changeRole]. *)
Definition afterChange (st : RoleState) (roleId : string) : RoleState :=
  snd (changeRole st roleId).

(** Several calls of [changeRole], one after the other. *)
Definition changeRoles (st : RoleState) (roleIds : list string) : RoleState :=
  fold_left afterChange roleIds st.

(** [roleId] is the id of a role of the list. *)
Definition known (st : RoleState) (roleId : string) : bool :=
  some (fun role => String.eqb (id role) roleId) (roles st).

(** The selected id names a role of the list. *)
Definition selectionValid (st : RoleState) : Prop :=
  exists role, In role (roles st) /\ id role = selectedRole st.

(** HomePage: the card of a role calls [changeRole(role.id)] when clicked. *)
Definition clickCard (st : RoleState) (role : Role) : bool * RoleState :=
  changeRole st (id role).

End RoleSelection.

(** ** pages/UploadPage *)
Module UploadPage.

(** The [File] picked in the form; the page reads its [name]. *)
Record File := { fileName : string }.

(** The six [useState] cells of the page. *)
Record PageState := {
  uploadType : string;
  file : option File;
  repoUrl : string;
  branch : string;
  isLoading : bool;
  error : string
}.

Definition initialPage : PageState :=
  {| uploadType := "file"; file := None; repoUrl := ""; branch := "main";
     isLoading := false; error := "" |}.

(** [handleFileChange]: [e.target.files[0]] is [undefined] when the list of
    picked files is empty. *)
Definition handleFileChange (files : list File) (page : PageState) : PageState :=
  {| uploadType := uploadType page; file := head files; repoUrl := repoUrl page;
     branch := branch page; isLoading := isLoading page; error := "" |}.

(** The two requests the page can send. *)
Inductive Request :=
| Upload (url : string) (formFile : File)
| Clone (url : string) (repo_url : string) (cloneBranch : string).

(** How the awaited [axios.post] settles; the page reads
    [response.data.codebase_id]. *)
Inductive Settled :=
| Fulfilled (codebase_id : string)
| Rejected (err : Api.AxiosError).

Definition Transport := Request -> Settled.

(** What a submit leaves behind: the page's cells, the calls made on the
    codebase context, the requests sent and the route navigated to. *)
Record Submitted := {
  page : PageState;
  calls : list CodebaseContext.Call;
  requests : list Request;
  navigated : option string
}.

Definition withResult (before : PageState) (message : string) : PageState :=
  {| uploadType := uploadType before; file := file before;
     repoUrl := repoUrl before; branch := branch before;
     isLoading := false; error := message |}.

(** The [return] of a failed validation: the message is set, [isLoading]
    is cleared, and nothing else happens. *)
Definition rejectForm (before : PageState) (message : string) : Submitted :=
  {| page := withResult before message; calls := []; requests := [];
     navigated := None |}.

(** The part of [handleSubmit] after validation: [startUpload], the awaited
    request, then [uploadComplete] and [navigate], or the [catch] block. *)
Definition send (post : Transport) (before : PageState) (request : Request)
    (name' uploadType' : string) : Submitted :=
  match post request with
  | Fulfilled codebase_id =>
      {| page := withResult before "";
         calls := CodebaseContext.handleSubmit name' uploadType' (inl codebase_id);
         requests := [request];
         navigated := Some ("/results/" ++ codebase_id)%string |}
  | Rejected err =>
      let message :=
        ResultsPage.orDefault
          (ResultsPage.optionalChain
             (ResultsPage.optionalChain (Api.response err) Api.errorData) Api.detail)
          "An error occurred during upload" in
      {| page := withResult before message;
         calls := CodebaseContext.handleSubmit name' uploadType' (inr message);
         requests := [request];
         navigated := None |}
  end.

(** [handleSubmit] *)
Definition handleSubmit (post : Transport) (before : PageState) : Submitted :=
  if String.eqb (uploadType before) "file" then
    match file before with
    | None => rejectForm before "Please select a file to upload"
    | Some picked =>
        send post before (Upload "/api/upload" picked) (fileName picked) "file"
    end
  else
    if String.eqb (repoUrl before) "" then
      rejectForm before "Please enter a repository URL"
    else
      send post before
           (Clone "/api/clone" (repoUrl before)
                  (if String.eqb (branch before) "" then "main" else branch before))
           (repoUrl before) "repo".

(** The form cannot be submitted as it is. *)
Definition incomplete (before : PageState) : Prop :=
  (uploadType before = "file" /\ file before = None)
  \/ (uploadType before <> "file" /\ repoUrl before = "").

(** services/api.js, [cloneRepository(repoUrl, branch = 'main')]: the
    default applies when the argument is left out. *)
Definition cloneRepository (repoUrl' : string) (branch' : option string) : Request :=
  Clone "/api/clone" repoUrl' (default "main" branch').

(** services/api.js, [uploadCodebase(file)] *)
Definition uploadCodebase (picked : File) : Request := Upload "/api/upload" picked.

End UploadPage.

(** ** components/InsightDisplay *)
Module InsightDisplay.

(** The object [{ id: key, ...insight }] pushed into a group. *)
Definition Item := (string * Payload.Insight)%type.

(** [insight.task_type || 'other'] *)
Definition typeOf (insight : Payload.Insight) : string :=
  if String.eqb (Payload.task_type insight) "" then "other"
  else Payload.task_type insight.

(** The names a read of any object finds on [Object.prototype]. *)
Definition inherited (key : string) : bool :=
  String.eqb key "__proto__"
  || existsb (String.eqb key) Visualizations.objectPrototypeFunctions.

(** What [acc[type]] evaluates to: an array the reducer stored, a value
    inherited from [Object.prototype] (truthy, and without [push]), or
    [undefined]. *)
Inductive Read :=
| Own (items : list Item)
| Inherited
| Missing.

Definition read (acc : gmap string (list Item)) (key : string) : Read :=
  match acc !! key with
  | Some items => Own items
  | None => if inherited key then Inherited else Missing
  end.

(** One step of the reducer; [None] is the [TypeError] of calling the
    missing [push] of an inherited value. *)
Definition addInsight (acc : gmap string (list Item)) (entry : string * Payload.Insight)
    : option (gmap string (list Item)) :=
  let type := typeOf (snd entry) in
  match read acc type with
  | Missing => Some (<[type := [entry]]> acc)
  | Own items => Some (<[type := items ++ [entry]]> acc)
  | Inherited => None
  end.

(** [entries.reduce(step, acc)]: an exception ends the reduction. *)
Fixpoint reduce (entries : list (string * Payload.Insight))
    (acc : gmap string (list Item)) : option (gmap string (list Item)) :=
  match entries with
  | [] => Some acc
  | entry :: rest =>
      match addInsight acc entry with
      | Some acc' => reduce rest acc'
      | None => None
      end
  end.

(** [groupedInsights]: the own properties of the object the reduction
    returns ([insights] is the list [Object.entries(insights)]). *)
Definition groupedInsights (insights : list (string * Payload.Insight))
    : option (gmap string (list Item)) :=
  reduce insights ∅.

(** The insights of one type, in their order. *)
Definition ofType (type : string) (insights : list (string * Payload.Insight))
    : list Item :=
  List.filter (fun entry => String.eqb (typeOf (snd entry)) type) insights.

(** How a group grows: the stored items, if any, followed by the new ones. *)
Definition grown (stored : option (list Item)) (new : list Item) : option (list Item) :=
  match stored, new with
  | Some items, _ => Some (items ++ new)
  | None, [] => None
  | None, _ => Some new
  end.

(** [getVisualizationsForInsight] *)
Definition getVisualizationsForInsight (visualizations : list Payload.VisualizationEntry)
    (insightId : string) : list Payload.VisualizationEntry :=
  List.filter (fun viz => String.eqb (Payload.task_id viz) insightId) visualizations.

End InsightDisplay.

(** ** pages/ResultsPage: the placeholder and the insights grid *)
Module ResultsGrid.

(** What [VisualizationPlaceholder] shows: the type, and in the [pre] block
    the first hundred characters of the data followed by an ellipsis, and
    the config. *)
Record Placeholder := {
  shownType : string;
  preview : string;
  shownConfig : list (string * Payload.ConfigValue)
}.

Definition VisualizationPlaceholder (viz : Payload.VisualizationEntry) : Placeholder :=
  {| shownType := Payload.type viz;
     preview := String.substring 0 100 (Payload.data viz) ++ "...";
     shownConfig := Payload.config viz |}.

(** One card of the grid. *)
Record Card := {
  cardKey : string;
  cardQuestion : string;
  cardAnswer : string;
  cardVisualizations : list Placeholder
}.

(** The body of the [map] over [Object.entries(codebase.insights.insights)]. *)
Definition card (visualizations : list Payload.VisualizationEntry)
    (entry : string * Payload.Insight) : Card :=
  {| cardKey := fst entry;
     cardQuestion := Payload.question (snd entry);
     cardAnswer := Payload.answer (snd entry);
     cardVisualizations :=
       if existsb (fun v => String.eqb (Payload.task_id v) (fst entry)) visualizations
       then map VisualizationPlaceholder
                (List.filter (fun v => String.eqb (Payload.task_id v) (fst entry))
                             visualizations)
       else [] |}.

Definition insightsGrid (shown : Payload.InsightsData) : list Card :=
  map (card (Payload.visualizations shown)) (Payload.insights shown).

(** The visualizations whose [task_id] is the key of some insight. *)
Definition matched (shown : Payload.InsightsData) : list Payload.VisualizationEntry :=
  List.filter
    (fun v => existsb (String.eqb (Payload.task_id v)) (map fst (Payload.insights shown)))
    (Payload.visualizations shown).

End ResultsGrid.

(** ** components/visualizations/FolderTree *)
Module FolderTree.

(** A node of the tree: [children] is absent on files. *)
#[warnings="-register-all"]
Inductive Node :=
| MkNode (name : string) (type : string) (children : option (list Node)).

Definition directory (name : string) (children : list Node) : Node :=
  MkNode name "directory" (Some children).
Definition fileNode (name : string) : Node := MkNode name "file" None.

(** What [parseMockData] returns. *)
Definition mockTree : Node :=
  directory "insightAI"
    [ directory "frontend"
        [ directory "src"
            [ directory "components" []; directory "pages" [];
              directory "context" []; fileNode "App.jsx"; fileNode "index.js" ];
          fileNode "package.json" ];
      directory "backend"
        [ fileNode "main.py"; fileNode "config.py"; fileNode "utils.py" ];
      directory "rag"
        [ fileNode "pipeline.py"; fileNode "role_manager.py";
          directory "templates" [ fileNode "project_manager.json" ] ];
      directory "parsers"
        [ fileNode "base_parser.py"; fileNode "parser_registry.py";
          directory "languages" []; directory "grammars" [] ];
      directory "agents" [];
      directory "tests" [];
      fileNode "README.md" ].

(** [config?.max_depth || 3], as the number [depth > maxDepth] compares
    with: 0, [false] and a missing value give 3, [true] counts as 1. *)
Definition maxDepth (max_depth : option Payload.ConfigValue) : Z :=
  match max_depth with
  | Some (Payload.CNumber n) => if Z.eqb n 0 then 3%Z else n
  | Some (Payload.CBoolean true) => 1%Z
  | Some (Payload.CBoolean false) => 3%Z
  | None => 3%Z
  end.

(** [`${path}/${node.name}`] *)
Definition currentPath (path name : string) : string := path ++ "/" ++ name.

(** The [expandedNodes] object: the own properties the toggles stored.
    [!expandedNodes[path]]: the negation of the stored flag, [true] for a
    path never stored, [false] for a name inherited from [Object.prototype]
    (a truthy value). *)
Definition negatedFlag (expandedNodes : gmap string bool) (path : string) : bool :=
  match expandedNodes !! path with
  | Some flag => negb flag
  | None => negb (InsightDisplay.inherited path)
  end.

(** [toggleExpand] *)
Definition toggleExpand (expandedNodes : gmap string bool) (path : string)
    : gmap string bool :=
  <[path := negatedFlag expandedNodes path]> expandedNodes.

(** [expandedNodes[currentPath] !== false] *)
Definition isExpanded (expandedNodes : gmap string bool) (path : string) : bool :=
  match expandedNodes !! path with
  | Some false => false
  | _ => true
  end.

(** A rendered row: its path (the React key), whether it is drawn as a
    folder, the arrow of its button if it has one ([true] is the down
    arrow), and the block of its children if there is one, where [None]
    stands for a child that rendered [null]. *)
#[warnings="-register-all"]
Inductive Row :=
| MkRow (path : string) (folder : bool) (arrow : option bool)
        (block : option (list (option Row))).

(** [node.children && node.children.length > 0] *)
Definition hasChildren (children : option (list Node)) : bool :=
  match children with
  | Some (_ :: _) => true
  | _ => false
  end.

(** [renderTreeNode(node, path, depth)] *)
Fixpoint renderTreeNode (expandedNodes : gmap string bool) (limit : Z)
    (node : Node) (path : string) (depth : nat) : option Row :=
  match node with
  | MkNode name type children =>
      let here := currentPath path name in
      let expanded := isExpanded expandedNodes here in
      if Z.ltb limit (Z.of_nat depth) && negb expanded then None
      else
        let folder := String.eqb type "directory" in
        Some (MkRow here folder
                (if folder && hasChildren children then Some expanded else None)
                (if folder && expanded then
                   match children with
                   | Some nodes =>
                       Some (map (fun child =>
                                    renderTreeNode expandedNodes limit child here (S depth))
                                 nodes)
                   | None => None
                   end
                 else None))
  end.

(** The component: the [data] prop is not looked at. *)
Definition FolderTree (data : string) (max_depth : option Payload.ConfigValue)
    (expandedNodes : gmap string bool) : option Row :=
  renderTreeNode expandedNodes (maxDepth max_depth) mockTree "" 0.

(** The paths of the rows that are drawn. *)
Fixpoint rowPaths (row : Row) : list string :=
  match row with
  | MkRow path _ _ block =>
      path :: match block with
              | Some rows =>
                  flat_map (fun child => match child with
                                         | Some r => rowPaths r
                                         | None => []
                                         end) rows
              | None => []
              end
  end.

(** The paths of a node and of everything below it that sits in folders. *)
Fixpoint nodePaths (node : Node) (path : string) : list string :=
  match node with
  | MkNode name type children =>
      currentPath path name
      :: match children with
         | Some nodes =>
             if String.eqb type "directory"
             then flat_map (fun child => nodePaths child (currentPath path name)) nodes
             else []
         | None => []
         end
  end.

(** No path was collapsed: no stored flag is [false]. *)
Definition nothingCollapsed (expandedNodes : gmap string bool) : Prop :=
  forall path, expandedNodes !! path <> Some false.

(** Whether a string has a slash in it, as every path of a row has. *)
Fixpoint hasSlash (s : string) : bool :=
  match s with
  | EmptyString => false
  | String c rest => Ascii.eqb c "/"%char || hasSlash rest
  end.

(** [n] clicks on the button of one row. *)
Definition toggles (n : nat) (path : string) (expandedNodes : gmap string bool)
    : gmap string bool :=
  Nat.iter n (fun stored => toggleExpand stored path) expandedNodes.

End FolderTree.

(* ===================================================================== *)
(** * Part II: theorems                                                    *)
(* ===================================================================== *)

Module CodebaseContextFacts.
Import CodebaseContext.

Lemma status_perform (codebase : Codebase) (op : Operation) :
  status (perform codebase op) = writes op.
Proof. destruct op; reflexivity. Qed.

Lemma writes_in_statusValues (op : Operation) : In (writes op) statusValues.
Proof. destruct op; simpl; tauto. Qed.

Lemma replay_statuses (calls : list Call) : forall history,
  map status (replay history calls) =
  rev (map (fun call => writes (operation call)) calls) ++ map status history.
Proof.
  induction calls as [|call rest IH]; intros history; simpl.
  - reflexivity.
  - rewrite IH. simpl. rewrite status_perform, <- app_assoc. reflexivity.
Qed.

Lemma statusesSeen_writes (calls : list Call) :
  statusesSeen calls = "idle" :: map (fun call => writes (operation call)) calls.
Proof.
  unfold statusesSeen. rewrite replay_statuses. simpl.
  rewrite rev_app_distr, rev_involutive. reflexivity.
Qed.

(** C1, as stated, fails: a second upload started from the results of the
    first takes the status from ready back to uploading. *)
Lemma second_upload_moves_status_backward :
  ~ progressesMonotonically
      (handleSubmit "first.zip" "file" (inl "cb-1")
       ++ [ {| age := 0; operation := SetInsights ResultsPage.mockInsights |} ]
       ++ handleSubmit "second.zip" "file" (inl "cb-2")).
Proof.
  unfold progressesMonotonically. rewrite statusesSeen_writes. simpl.
  unfold stage; simpl. lia.
Qed.

(** C1, amended: whatever record a callback captured, the status after a
    call is the literal that operation writes (startUpload: uploading,
    uploadComplete: processing, uploadError: error, setInsights: ready,
    resetCodebase: idle); so the statuses seen from the initial idle record
    never step backward exactly when the operations are called in stage
    order. *)
Theorem status_is_written_by_each_operation (calls : list Call) :
  statusesSeen calls = "idle" :: map (fun call => writes (operation call)) calls
  /\ (progressesMonotonically calls <->
      neverBackward "idle" (map (fun call => writes (operation call)) calls)).
Proof.
  split; [apply statusesSeen_writes|].
  unfold progressesMonotonically. rewrite statusesSeen_writes. tauto.
Qed.

(** The upload flow itself, submit and then the insights or a failure, is
    in stage order. *)
Example upload_flow_progresses :
  progressesMonotonically
    (handleSubmit "first.zip" "file" (inl "cb-1")
     ++ [ {| age := 0; operation := SetInsights ResultsPage.mockInsights |} ])
  /\ progressesMonotonically (handleSubmit "first.zip" "file" (inr "No such file")).
Proof.
  split; unfold progressesMonotonically; rewrite statusesSeen_writes; simpl;
    unfold stage; simpl; lia.
Qed.

Lemma wellFormed_weaken (Q Q' : string -> Prop) (codebase : Codebase) :
  (forall m, Q m -> Q' m) -> wellFormed Q codebase -> wellFormed Q' codebase.
Proof. intros HQ [Hs He]. split; [exact Hs|]. intros m Hm. apply HQ, He, Hm. Qed.

Lemma wellFormed_initial (Q : string -> Prop) : wellFormed Q initialCodebase.
Proof. split; simpl; [tauto | discriminate]. Qed.

Lemma wellFormed_captured (Q : string -> Prop) (history : list Codebase) (n : nat) :
  (forall c, In c history -> wellFormed Q c) -> wellFormed Q (captured history n).
Proof.
  intros Hh. unfold captured.
  destruct (nth_in_or_default n history initialCodebase) as [Hin | ->].
  - apply Hh, Hin.
  - apply wellFormed_initial.
Qed.

Lemma wellFormed_perform (Q : string -> Prop) (codebase : Codebase) (op : Operation) :
  wellFormed Q codebase ->
  wellFormed (fun m => Q m \/ op = UploadError m) (perform codebase op).
Proof.
  intros [Hs He]. split.
  - rewrite status_perform. apply writes_in_statusValues.
  - intros m. destruct op; simpl; intros Hm;
      try discriminate; try (left; apply He, Hm).
    injection Hm as ->. right; reflexivity.
Qed.

Lemma wellFormed_replay (calls : list Call) : forall (Q : string -> Prop) history,
  (forall c, In c history -> wellFormed Q c) ->
  forall c, In c (replay history calls) ->
    wellFormed
      (fun m => Q m \/ exists call, In call calls /\ operation call = UploadError m) c.
Proof.
  induction calls as [|call rest IH]; intros Q history Hh c Hc; simpl in Hc.
  - eapply wellFormed_weaken; [|apply Hh, Hc]. intros m Hm; left; exact Hm.
  - eapply wellFormed_weaken;
      [|eapply (IH (fun m => Q m \/ operation call = UploadError m)); [|exact Hc]].
    + intros m [[Hm | Hm] | (call' & Hin & Hm)].
      * left; exact Hm.
      * right; exists call; split; [left; reflexivity | exact Hm].
      * right; exists call'; split; [right; exact Hin | exact Hm].
    + intros c' [<- | Hin].
      * apply wellFormed_perform, wellFormed_captured, Hh.
      * eapply wellFormed_weaken; [|apply Hh, Hin]. intros m Hm; left; exact Hm.
Qed.

(** C7, as stated, fails: on the upload page a failed submit followed by a
    successful one leaves the first failure's message next to status
    processing. *)
Lemma stale_error_survives_retry :
  ~ errorOnlyWithFailure
      (current (handleSubmit "project.zip" "file" (inr "An error occurred during upload")
                ++ handleSubmit "project.zip" "file" (inl "cb-1"))).
Proof.
  unfold errorOnlyWithFailure. simpl. intros H.
  assert (Hs : "processing" = "error") by (apply H; discriminate).
  discriminate Hs.
Qed.

(** C7, amended: after every call the status is one of idle, uploading,
    processing, ready, error; the error field is null or the message given
    to an earlier uploadError call.  uploadError stores its message and is
    the only operation that writes status error, startUpload and
    resetCodebase clear the message, and uploadComplete and setInsights copy
    the message of the record they captured. *)
Theorem status_in_range_and_error_from_uploadError (calls : list Call) :
  (forall codebase, In codebase (replay [initialCodebase] calls) ->
     In (status codebase) statusValues
     /\ forall m, error codebase = Some m ->
          exists call, In call calls /\ operation call = UploadError m)
  /\ (forall codebase op,
       error (perform codebase op) =
         match op with
         | UploadError m => Some m
         | StartUpload _ _ | ResetCodebase => None
         | UploadComplete _ | SetInsights _ => error codebase
         end
       /\ (status (perform codebase op) = "error" <-> exists m, op = UploadError m)).
Proof.
  split.
  - intros codebase Hin.
    destruct (wellFormed_replay calls (fun _ => False) [initialCodebase]) with (c := codebase)
      as [Hs He].
    + intros c [<- | []]. apply wellFormed_initial.
    + exact Hin.
    + split; [exact Hs|]. intros m Hm. destruct (He m Hm) as [[] | Hex]. exact Hex.
  - intros codebase op. split.
    + destruct op; reflexivity.
    + rewrite status_perform. destruct op; simpl; split;
        try discriminate; try (intros [m Hm]; discriminate Hm); eauto.
Qed.

Lemma replay_snoc (calls : list Call) (call : Call) : forall history,
  replay history (calls ++ [call]) =
  perform (captured (replay history calls) (age call)) (operation call)
  :: replay history calls.
Proof.
  induction calls as [|first rest IH]; intros history; simpl; [reflexivity|].
  apply IH.
Qed.

(** C9: startUpload writes name, uploadType, status and error and copies id
    and insights from the record it captured; called after setInsights, or
    after any calls from the latest render, the stored id and insights are
    still attached while the status is uploading. *)
Theorem startUpload_frame (codebase : Codebase) (name' uploadType' : string) :
  let codebase' := startUpload codebase name' uploadType' in
  name codebase' = name'
  /\ uploadType codebase' = Some uploadType'
  /\ status codebase' = "uploading"
  /\ error codebase' = None
  /\ id codebase' = id codebase
  /\ insights codebase' = insights codebase
  /\ (forall previous,
        insights (startUpload (setInsights codebase previous) name' uploadType')
        = Some previous)
  /\ (forall calls,
        let after := current (calls ++ [ {| age := 0;
                                            operation := StartUpload name' uploadType' |} ]) in
        id after = id (current calls) /\ insights after = insights (current calls)).
Proof.
  simpl. repeat split; unfold current; rewrite replay_snoc; reflexivity.
Qed.

End CodebaseContextFacts.

Module RoleContextFacts.
Import RoleContext.

Lemma some_exists (roleId : string) (l : list Role) :
  some (fun role => String.eqb (id role) roleId) l = true <->
  exists role, In role l /\ id role = roleId.
Proof.
  unfold some. rewrite existsb_exists. split; intros (role & Hin & Heq); exists role.
  - split; [exact Hin | apply String.eqb_eq, Heq].
  - split; [exact Hin | apply String.eqb_eq, Heq].
Qed.

(** C8: changeRole returns true and selects roleId exactly when a role of
    the current list has that id; otherwise it returns false and the state,
    the selected role included, is unchanged.  The roles list itself is
    never changed. *)
Theorem changeRole_selects_exactly_known_roles (st : RoleState) (roleId : string) :
  let known := exists role, In role (roles st) /\ id role = roleId in
  (fst (changeRole st roleId) = true <-> known)
  /\ (known ->
      changeRole st roleId =
        (true, {| roles := roles st; selectedRole := roleId;
                  loadingRoles := loadingRoles st; error := error st |}))
  /\ (~ known -> changeRole st roleId = (false, st))
  /\ roles (snd (changeRole st roleId)) = roles st.
Proof.
  simpl. pose proof (some_exists roleId (roles st)) as Hsome.
  unfold changeRole.
  destruct (some (fun role => String.eqb (id role) roleId) (roles st)); simpl.
  - assert (Hk : exists role, In role (roles st) /\ id role = roleId)
      by (apply Hsome; reflexivity).
    repeat split; try tauto.
  - assert (Hk : ~ exists role, In role (roles st) /\ id role = roleId)
      by (intros Hk; apply Hsome in Hk; discriminate Hk).
    repeat split; try tauto; try discriminate.
Qed.

End RoleContextFacts.


Module VisualizationsFacts.
Import Visualizations.

(** Away from the names [Object.prototype] defines, the dispatcher does what
    its comment says: the mapped component for a key of the table, and the
    "Unknown visualization type" fallback for every other string. *)
Lemma Visualization_total_off_prototype (type : string) :
  type <> "__proto__" -> ~ In type objectPrototypeFunctions ->
  dispatchesAsDocumented type.
Proof.
  intros Hproto Hfun d c. unfold Visualization, getProperty. cbn [elementType].
  destruct (visualizationMap !! type) as [component|]; [reflexivity|].
  destruct (String.eqb_spec type "__proto__") as [->|_]; [contradiction|].
  destruct (existsb (String.eqb type) objectPrototypeFunctions) eqn:E; [|reflexivity].
  exfalso. apply Hfun. apply existsb_exists in E as (k & Hin & Hk).
  apply String.eqb_eq in Hk as ->. exact Hin.
Qed.

Lemma Visualization_total_off_prototype_example :
  dispatchesAsDocumented "folder_tree" /\ dispatchesAsDocumented "heat_map".
Proof.
  split; apply Visualization_total_off_prototype;
    solve [ discriminate | simpl; intuition discriminate ].
Qed.

(** C10 at the type "constructor", which is not a key of the table: the read
    [visualizationMap[type]] finds [Object.prototype.constructor], a truthy
    function, so the element is built from it and the fallback is skipped. *)
Theorem Visualization_constructor_skips_fallback :
  visualizationMap !! "constructor" = None
  /\ (forall d c,
       elementType (Visualization "constructor" d c) = ObjectBuiltin "constructor")
  /\ ~ dispatchesAsDocumented "constructor".
Proof.
  assert (Hkey : visualizationMap !! "constructor" = None) by (vm_compute; reflexivity).
  split; [exact Hkey|]. split.
  - intros d c. unfold Visualization, getProperty. rewrite Hkey. reflexivity.
  - intros H. specialize (H "" []). rewrite Hkey in H.
    unfold Visualization, getProperty in H. rewrite Hkey in H. discriminate H.
Qed.

End VisualizationsFacts.

Module ResultsPageFacts.
Import ResultsPage.

Lemma orDefault_nonempty (value : option string) (fallback : string) :
  fallback <> "" -> orDefault value fallback <> "".
Proof.
  intros Hf. unfold orDefault. destruct value as [s|]; [|exact Hf].
  destruct (String.eqb_spec s ""); [exact Hf | assumption].
Qed.

End ResultsPageFacts.

Module RoleStoreFacts.
Import RoleStore.

Lemma memberb_In (x : string) (l : list string) : memberb x l = true <-> In x l.
Proof.
  unfold memberb. rewrite existsb_exists. split.
  - intros (y & Hin & Heq). apply String.eqb_eq in Heq as ->. exact Hin.
  - intros Hin. exists x. split; [exact Hin | apply String.eqb_refl].
Qed.

Lemma sameSetb_spec (l1 l2 : list string) :
  sameSetb l1 l2 = true <-> forall p, In p l1 <-> In p l2.
Proof.
  unfold sameSetb. rewrite andb_true_iff, !forallb_forall. split.
  - intros [H12 H21] p. split; intros Hp.
    + apply memberb_In, H12, Hp.
    + apply memberb_In, H21, Hp.
  - intros H. split; intros x Hx; apply memberb_In, H, Hx.
Qed.

Lemma distinctb_NoDup (l : list string) : distinctb l = true <-> NoDup l.
Proof.
  induction l as [|x rest IH]; simpl.
  - split; [intros _; apply NoDup_nil_2 | reflexivity].
  - rewrite andb_true_iff, negb_true_iff, IH, NoDup_cons.
    rewrite list_elem_of_In, <- memberb_In.
    destruct (memberb x rest); intuition congruence.
Qed.

Lemma validate_wellFormed (registered : list string) (t : RoleTemplate) :
  validate registered t = true <->
  wellFormedTemplate t /\ In (roleId t) registered.
Proof.
  unfold validate, wellFormedTemplate.
  rewrite !andb_true_iff, sameSetb_spec, distinctb_NoDup, memberb_In. tauto.
Qed.

Lemma load_lookup (registered : list string) (files : list RoleTemplate)
    (role : string) (t : RoleTemplate) :
  load registered files !! role = Some t ->
  roleId t = role /\ In t files /\ validate registered t = true.
Proof.
  unfold load. intros H. apply elem_of_list_to_map_2 in H.
  apply list_elem_of_fmap in H as (t' & Heq & Hin).
  injection Heq as -> ->.
  apply list_elem_of_filter in Hin as [Hv Hin].
  split; [reflexivity|]. split; [apply list_elem_of_In, Hin | exact Hv].
Qed.

Example project_manager_placeholders :
  placeholders (prompt_template project_manager) = ["context"; "focus"; "question"].
Proof. vm_compute. reflexivity. Qed.

Example readme_example_placeholders :
  placeholders readme_example_prompt = ["role"; "focus"; "task"].
Proof. vm_compute. reflexivity. Qed.

(** C5: a template that the store hands out has exactly the placeholders
    context, focus and question in its prompt template and pairwise distinct
    task ids (and is one of the loaded files, under its own registered id);
    [get] is a plain lookup, so the check happened when the table was built. *)
Theorem loaded_templates_are_well_formed
    (registered : list string) (files : list RoleTemplate)
    (role : string) (t : RoleTemplate) :
  get (load registered files) role = inl t ->
  wellFormedTemplate t
  /\ roleId t = role /\ In t files /\ In role registered.
Proof.
  unfold get. destruct (load registered files !! role) as [t'|] eqn:E; [|discriminate].
  intros H; injection H as ->.
  apply load_lookup in E as (Hid & Hin & Hv).
  apply validate_wellFormed in Hv as [Hwf Hreg].
  rewrite Hid in Hreg. tauto.
Qed.

Lemma loaded_templates_are_well_formed_witness :
  get (load ["project_manager"] [project_manager]) "project_manager" = inl project_manager
  /\ wellFormedTemplate project_manager.
Proof.
  assert (H : get (load ["project_manager"] [project_manager]) "project_manager"
              = inl project_manager) by (vm_compute; reflexivity).
  split; [exact H|].
  exact (proj1 (loaded_templates_are_well_formed
                  ["project_manager"] [project_manager] "project_manager"
                  project_manager H)).
Defined.

(** The other direction of C5: a template that breaks the invariant is in no
    loaded table, whatever else is loaded with it. *)
Lemma ill_formed_templates_are_rejected
    (registered : list string) (files : list RoleTemplate) (t : RoleTemplate) :
  ~ wellFormedTemplate t ->
  forall role, get (load registered files) role <> inl t.
Proof.
  intros Hbad role H. apply Hbad.
  unfold get in H. destruct (load registered files !! role) as [t'|] eqn:E; [|discriminate].
  injection H as ->. apply load_lookup in E as (_ & _ & Hv).
  apply validate_wellFormed in Hv. tauto.
Qed.

End RoleStoreFacts.

Module IngestionFacts.
Import Retrieval Ingestion.

Section Run.
Variable split : string -> list string.
Variable files : gmap string string.

Lemma consistent_start (firstId : nat) :
  consistent split files {| nextId := firstId; cursors := ∅; emitted := [] |}.
Proof.
  intros path. unfold cursor, chunksOf; simpl. rewrite lookup_empty; simpl.
  split; [reflexivity | lia].
Qed.

Lemma cursor_emit_same (st : RunState) (path : string) :
  cursor (emit split files st path) path =
    if decide (cursor st path < length (texts split files path))
    then S (cursor st path) else cursor st path.
Proof.
  unfold emit. destruct (texts split files path !! cursor st path) as [t|] eqn:E.
  - apply lookup_lt_Some in E. rewrite decide_True by exact E.
    unfold cursor at 1; simpl. rewrite lookup_insert_eq. reflexivity.
  - apply lookup_ge_None in E. rewrite decide_False by lia. reflexivity.
Qed.

Lemma cursor_emit_other (st : RunState) (path other : string) :
  path <> other -> cursor (emit split files st path) other = cursor st other.
Proof.
  intros Hne. unfold emit.
  destruct (texts split files path !! cursor st path) as [t|]; [|reflexivity].
  unfold cursor at 1; simpl. rewrite lookup_insert_ne by exact Hne. reflexivity.
Qed.

Lemma consistent_emit (st : RunState) (path : string) :
  consistent split files st -> consistent split files (emit split files st path).
Proof.
  intros Hst other. destruct (Hst other) as [Hview Hle].
  destruct (decide (path = other)) as [<- | Hne].
  - rewrite cursor_emit_same. unfold emit.
    destruct (texts split files path !! cursor st path) as [t|] eqn:E.
    + pose proof (lookup_lt_Some _ _ _ E) as Hlt.
      rewrite decide_True by exact Hlt. split; [|lia].
      unfold chunksOf; simpl. rewrite filter_app, map_app, filter_cons_True by reflexivity.
      fold (chunksOf path st). rewrite Hview. simpl.
      symmetry. apply take_S_r. unfold numbered. rewrite list_lookup_imap, E.
      reflexivity.
    + apply lookup_ge_None in E. rewrite decide_False by lia. split; assumption.
  - rewrite cursor_emit_other by exact Hne. split; [|exact Hle].
    unfold emit. destruct (texts split files path !! cursor st path) as [t|];
      [|exact Hview].
    unfold chunksOf; simpl. rewrite filter_app, filter_cons_False by (simpl; exact Hne).
    simpl. rewrite app_nil_r. exact Hview.
Qed.

Lemma consistent_fold (interleaving : list string) : forall st,
  consistent split files st ->
  consistent split files (fold_left (emit split files) interleaving st).
Proof.
  induction interleaving as [|path rest IH]; intros st Hst; simpl; [exact Hst|].
  apply IH, consistent_emit, Hst.
Qed.

Lemma cursor_fold (interleaving : list string) (path : string) : forall st,
  cursor st path <= length (texts split files path) ->
  cursor (fold_left (emit split files) interleaving st) path =
    Nat.min (cursor st path + length (filter (fun p => p = path) interleaving))
            (length (texts split files path)).
Proof.
  induction interleaving as [|p rest IH]; intros st Hle; simpl.
  - simpl. lia.
  - destruct (decide (p = path)) as [-> | Hne].
    + rewrite filter_cons_True by reflexivity. simpl.
      rewrite IH; rewrite cursor_emit_same; case_decide; lia.
    + rewrite filter_cons_False by exact Hne.
      rewrite IH; rewrite cursor_emit_other by exact Hne; [reflexivity | exact Hle].
Qed.

Lemma ingest_chunks (firstId : nat) (interleaving : list string) (path : string) :
  map view (chunksOf path (ingest split files firstId interleaving)) =
    take (length (filter (fun p => p = path) interleaving))
         (numbered (texts split files path)).
Proof.
  unfold ingest.
  destruct (consistent_fold interleaving _ (consistent_start firstId) path) as [Hview _].
  rewrite Hview, cursor_fold.
  - unfold cursor at 1; simpl. rewrite lookup_empty; simpl.
    assert (Hlen : length (numbered (texts split files path))
                   = length (texts split files path))
      by (unfold numbered; apply length_imap).
    destruct (le_lt_dec (length (filter (fun p => p = path) interleaving))
                        (length (texts split files path))) as [Hle | Hgt].
    + rewrite Nat.min_l by exact Hle. reflexivity.
    + rewrite Nat.min_r by lia. rewrite !take_ge by lia. reflexivity.
  - unfold cursor; simpl. rewrite lookup_empty; simpl. lia.
Qed.

End Run.

(** C6: two ingestion runs over the same files, with any two worker
    interleavings that let the file's worker finish and any two starting
    chunk ids, give the chunks of a file the same ordinals and texts, in the
    same order: the texts the chunking function cuts the content into,
    numbered from 0. *)
Theorem chunk_ordinals_are_deterministic
    (split : string -> list string) (files : gmap string string)
    (firstId1 firstId2 : nat) (interleaving1 interleaving2 : list string)
    (path : string) :
  finished split files interleaving1 path ->
  finished split files interleaving2 path ->
  map view (chunksOf path (ingest split files firstId1 interleaving1))
  = map view (chunksOf path (ingest split files firstId2 interleaving2))
  /\ map view (chunksOf path (ingest split files firstId1 interleaving1))
     = numbered (texts split files path).
Proof.
  unfold finished. intros H1 H2. rewrite !ingest_chunks.
  assert (Hall : forall n, length (texts split files path) <= n ->
            take n (numbered (texts split files path)) = numbered (texts split files path)).
  { intros n Hn. apply take_ge. unfold numbered. rewrite length_imap. exact Hn. }
  rewrite (Hall _ H1), (Hall _ H2). split; reflexivity.
Qed.

Lemma chunk_ordinals_are_deterministic_witness :
  let run1 := ["main.py"; "util.py"; "util.py"; "main.py"; "main.py"; "util.py"; "util.py"] in
  let run2 := ["util.py"; "main.py"; "main.py"; "util.py"; "main.py"; "util.py"; "util.py";
               "main.py"] in
  finished (slidingWindows samplePolicy) sampleFiles run1 "main.py"
  /\ finished (slidingWindows samplePolicy) sampleFiles run2 "main.py"
  /\ map view (chunksOf "main.py" (ingest (slidingWindows samplePolicy) sampleFiles 0 run1))
     = map view (chunksOf "main.py" (ingest (slidingWindows samplePolicy) sampleFiles 100 run2))
  /\ map view (chunksOf "main.py" (ingest (slidingWindows samplePolicy) sampleFiles 0 run1))
     = [(0, "impo"); (1, "ort "); (2, " os")].
Proof.
  intros run1 run2.
  assert (H1 : finished (slidingWindows samplePolicy) sampleFiles run1 "main.py")
    by (vm_compute; lia).
  assert (H2 : finished (slidingWindows samplePolicy) sampleFiles run2 "main.py")
    by (vm_compute; lia).
  split; [exact H1|]. split; [exact H2|].
  exact (chunk_ordinals_are_deterministic
           (slidingWindows samplePolicy) sampleFiles 0 100 run1 run2 "main.py" H1 H2).
Defined.

End IngestionFacts.

Module OrchestratorFacts.
Import Retrieval RoleStore Orchestrator.

Section Tasks.
Variables (search : Search) (caps : Capabilities) (cfg : Settings)
          (vectorIndex : VectorIndex) (role : RoleTemplate) (focus : option string).

Let exec := executeTask search caps cfg vectorIndex role focus.
Let fails := generationFails search caps cfg vectorIndex role focus.

Lemma failed_map (tasks : list AnalysisTask) :
  failed (map exec tasks) =
  map (fun t => (id t, GenerationError)) (List.filter fails tasks).
Proof.
  induction tasks as [|task rest IH]; simpl; [reflexivity|].
  unfold exec at 1, fails at 1, executeTask, generationFails.
  destruct (generate caps (promptFor search caps cfg vectorIndex role focus task));
    simpl; rewrite IH; reflexivity.
Qed.

Lemma answered_map (tasks : list AnalysisTask) :
  map taskId (answered (map exec tasks)) =
  map id (List.filter (fun t => negb (fails t)) tasks).
Proof.
  induction tasks as [|task rest IH]; simpl; [reflexivity|].
  unfold exec at 1, fails at 1, executeTask, generationFails.
  destruct (generate caps (promptFor search caps cfg vectorIndex role focus task));
    simpl; rewrite IH; reflexivity.
Qed.

Lemma answered_answers (tasks : list AnalysisTask) :
  map answer (answered (map exec tasks)) =
  successfulAnswers search caps cfg vectorIndex role focus tasks.
Proof.
  unfold successfulAnswers.
  induction tasks as [|task rest IH]; simpl; [reflexivity|].
  unfold exec at 1, executeTask.
  destruct (generate caps (promptFor search caps cfg vectorIndex role focus task));
    simpl; rewrite IH; reflexivity.
Qed.

Lemma answered_failed_length (outcomes : list TaskOutcome) :
  length (answered outcomes) + length (failed outcomes) = length outcomes.
Proof.
  induction outcomes as [|[r | t e] rest IH]; simpl; lia.
Qed.

Lemma answered_generated (tasks : list AnalysisTask) (r : InsightResult) :
  In r (answered (map exec tasks)) ->
  exists task, In task tasks /\ taskId r = id task
    /\ generate caps (promptFor search caps cfg vectorIndex role focus task)
       = Some (answer r).
Proof.
  induction tasks as [|task rest IH]; simpl; [intros []|].
  unfold exec at 1, executeTask.
  destruct (generate caps (promptFor search caps cfg vectorIndex role focus task))
    as [g|] eqn:E; simpl.
  - intros [<- | Hin].
    + exists task. simpl. auto.
    + destruct (IH Hin) as (task' & Hin' & H). exists task'. auto.
  - intros Hin. destruct (IH Hin) as (task' & Hin' & H). exists task'. auto.
Qed.

End Tasks.

Lemma retrievable_spec (codebase : Codebase) :
  match retrievable codebase with
  | inl vectorIndex => status codebase = Ready /\ index codebase = Some vectorIndex
  | inr e => e = NotReady /\ (status codebase <> Ready \/ index codebase = None)
  end.
Proof.
  unfold retrievable.
  destruct (status codebase), (index codebase); simpl; split;
    try reflexivity; try (left; discriminate); right; reflexivity.
Qed.

Lemma run_failed (search : Search) (caps : Capabilities) (cfg : Settings)
    (codebase : Codebase) (role : RoleTemplate) (focus : option string) :
  runStatus (run search caps cfg codebase role focus) = Failed <->
  status codebase <> Ready \/ index codebase = None.
Proof.
  unfold run. pose proof (retrievable_spec codebase) as Hspec.
  destruct (retrievable codebase) as [vectorIndex | e]; simpl.
  - destruct Hspec as [Hs Hi]. split.
    + destruct (failed _); discriminate.
    + intros [Hn | Hn]; congruence.
  - destruct Hspec as [_ Hnot]. split; [intros _; exact Hnot | reflexivity].
Qed.

Lemma run_not_ready (search : Search) (caps : Capabilities) (cfg : Settings)
    (codebase : Codebase) (role : RoleTemplate) (focus : option string) :
  runStatus (run search caps cfg codebase role focus) = Failed ->
  run search caps cfg codebase role focus =
    {| runStatus := Failed; results := []; failedTasks := [];
       summary := None; failure := Some NotReady |}.
Proof.
  unfold run. pose proof (retrievable_spec codebase) as Hspec.
  destruct (retrievable codebase) as [vectorIndex | e]; simpl.
  - destruct (failed _); discriminate.
  - destruct Hspec as [-> _]. reflexivity.
Qed.



End OrchestratorFacts.

Module RoleSelectionFacts.
Import RoleContext RoleSelection.

Lemma afterChange_roles (st : RoleState) (roleId : string) :
  roles (afterChange st roleId) = roles st.
Proof.
  unfold afterChange, changeRole.
  destruct (some _ (roles st)); reflexivity.
Qed.

Lemma afterChange_selected (st : RoleState) (roleId : string) :
  selectedRole (afterChange st roleId) =
  if known st roleId then roleId else selectedRole st.
Proof.
  unfold afterChange, changeRole, known.
  destruct (some _ (roles st)); reflexivity.
Qed.

Lemma afterChange_rest (st : RoleState) (roleId : string) :
  loadingRoles (afterChange st roleId) = loadingRoles st
  /\ error (afterChange st roleId) = error st.
Proof.
  unfold afterChange, changeRole.
  destruct (some _ (roles st)); split; reflexivity.
Qed.

Lemma known_afterChange (st : RoleState) (roleId other : string) :
  known (afterChange st roleId) other = known st other.
Proof. unfold known. rewrite afterChange_roles. reflexivity. Qed.

Lemma last_cons {A} (a d : A) (l : list A) : List.last (a :: l) d = List.last l a.
Proof.
  revert a d. induction l as [|b l IH]; intros a d; [reflexivity|].
  change (List.last (a :: b :: l) d) with (List.last (b :: l) d).
  rewrite !IH. reflexivity.
Qed.

Lemma known_exists (st : RoleState) (roleId : string) :
  known st roleId = true <-> exists role, In role (roles st) /\ id role = roleId.
Proof.
  unfold known, some. rewrite existsb_exists.
  split; intros (role & Hin & Heq); exists role; split; try exact Hin;
    apply String.eqb_eq, Heq.
Qed.

(** X1: a run of changeRole calls selects the last id of the run that is the id
    of a listed role and ignores the others; with no such id the selection
    stays.  The list of roles and the other cells are never changed. *)
Theorem changeRoles_selects_last_known (roleIds : list string) (st : RoleState) :
  let st' := changeRoles st roleIds in
  selectedRole st' = List.last (List.filter (known st) roleIds) (selectedRole st)
  /\ roles st' = roles st
  /\ loadingRoles st' = loadingRoles st
  /\ error st' = error st.
Proof.
  simpl. revert st. induction roleIds as [|roleId rest IH]; intros st.
  - repeat split.
  - unfold changeRoles in *. simpl.
    destruct (IH (afterChange st roleId)) as (Hsel & Hroles & Hload & Herr).
    destruct (afterChange_rest st roleId) as [Hl He].
    rewrite Hsel, Hroles, Hload, Herr, afterChange_roles, afterChange_selected, Hl, He.
    repeat split.
    assert (Hk : List.filter (known (afterChange st roleId)) rest
                 = List.filter (known st) rest).
    { apply List.filter_ext. intros other. apply known_afterChange. }
    rewrite Hk. destruct (known st roleId); [|reflexivity].
    rewrite last_cons. reflexivity.
Qed.

Lemma find_selected (st : RoleState) :
  selectionValid st ->
  exists role,
    find (fun role => String.eqb (id role) (selectedRole st)) (roles st) = Some role
    /\ In role (roles st) /\ id role = selectedRole st.
Proof.
  intros (role & Hin & Hid).
  destruct (find (fun role => String.eqb (id role) (selectedRole st)) (roles st))
    as [found|] eqn:E.
  - exists found. apply find_some in E as [Hfound Heq].
    apply String.eqb_eq in Heq. auto.
  - exfalso. apply (find_none _ _ E) in Hin.
    rewrite Hid, String.eqb_refl in Hin. discriminate Hin.
Qed.

(** X2: once the selected id names a listed role, it does so after every run of
    changeRole calls, and getCurrentRole returns a listed role with exactly
    the selected id: its fallback to the first role is never taken. *)
Theorem selection_stays_valid (st : RoleState) (roleIds : list string) :
  selectionValid st ->
  let st' := changeRoles st roleIds in
  selectionValid st'
  /\ exists role,
       getCurrentRole st' = Some role
       /\ In role (roles st') /\ id role = selectedRole st'.
Proof.
  intros Hvalid. simpl.
  assert (Hvalid' : selectionValid (changeRoles st roleIds)).
  { revert st Hvalid. induction roleIds as [|roleId rest IH]; intros st Hvalid;
      [exact Hvalid|].
    apply IH. unfold selectionValid.
    rewrite afterChange_roles, afterChange_selected.
    destruct (known st roleId) eqn:E; [|exact Hvalid].
    apply known_exists, E. }
  split; [exact Hvalid'|].
  destruct (find_selected _ Hvalid') as (role & Hfind & Hin & Hid).
  exists role. unfold getCurrentRole. rewrite Hfind. auto.
Qed.

Lemma selection_stays_valid_witness :
  let st' := changeRoles initialState
               ["backend_developer"; "nobody"; "ai_ml_engineer"; "ghost"] in
  selectionValid initialState
  /\ selectedRole st' = "ai_ml_engineer"
  /\ exists role, getCurrentRole st' = Some role /\ id role = "ai_ml_engineer".
Proof.
  assert (Hv : selectionValid initialState).
  { eexists. split; [left; reflexivity | reflexivity]. }
  split; [exact Hv|]. split; [reflexivity|].
  destruct (selection_stays_valid initialState
              ["backend_developer"; "nobody"; "ai_ml_engineer"; "ghost"] Hv)
    as (_ & role & Hget & _ & Hid).
  exists role. split; [exact Hget | exact Hid].
Defined.

Lemma find_listed (role : Role) (l : list Role) :
  In role l -> NoDup (map id l) ->
  find (fun r => String.eqb (id r) (id role)) l = Some role.
Proof.
  induction l as [|first rest IH]; intros Hin Hnd; [destruct Hin|].
  simpl in Hnd. apply NoDup_cons in Hnd as [Hfresh Hnd]. simpl.
  destruct Hin as [-> | Hin].
  - rewrite String.eqb_refl. reflexivity.
  - destruct (String.eqb_spec (id first) (id role)) as [Heq | _].
    + exfalso. apply Hfresh. rewrite Heq. apply list_elem_of_In, in_map, Hin.
    + apply IH; assumption.
Qed.

(** X3: clicking the card of a listed role always succeeds, and when the ids of
    the list are pairwise distinct getCurrentRole then returns that very
    role. *)
Theorem clicked_card_becomes_current (st : RoleState) (role : Role) :
  In role (roles st) -> NoDup (map id (roles st)) ->
  fst (clickCard st role) = true
  /\ selectedRole (snd (clickCard st role)) = id role
  /\ getCurrentRole (snd (clickCard st role)) = Some role.
Proof.
  intros Hin Hnd. unfold clickCard.
  assert (Hk : known st (id role) = true) by (apply known_exists; eauto).
  unfold changeRole. unfold known in Hk. rewrite Hk. simpl.
  repeat split. unfold getCurrentRole; simpl.
  rewrite (find_listed role (roles st) Hin Hnd). reflexivity.
Qed.

Lemma clicked_card_becomes_current_witness :
  let role := {| id := "backend_developer"; name := "Backend Developer";
                 description := "Focus on API design, data models, and server architecture." |} in
  In role (roles initialState)
  /\ NoDup (map id (roles initialState))
  /\ getCurrentRole (snd (clickCard initialState role)) = Some role.
Proof.
  intros role.
  assert (Hin : In role (roles initialState)) by (simpl; tauto).
  assert (Hnd : NoDup (map id (roles initialState))).
  { simpl. repeat (apply NoDup_cons_2; [rewrite list_elem_of_In; simpl; intuition discriminate|]).
    apply NoDup_nil_2. }
  split; [exact Hin|]. split; [exact Hnd|].
  exact (proj2 (proj2 (clicked_card_becomes_current initialState role Hin Hnd))).
Defined.

(** X4: getCurrentRole is undefined exactly when the list of roles is empty;
    otherwise it returns a listed role, and when no role has the selected id
    that role is the first of the list. *)
Theorem getCurrentRole_undefined_only_without_roles (st : RoleState) :
  (getCurrentRole st = None <-> roles st = [])
  /\ (forall role, getCurrentRole st = Some role -> In role (roles st))
  /\ (known st (selectedRole st) = false -> getCurrentRole st = head (roles st)).
Proof.
  unfold getCurrentRole.
  destruct (find (fun role => String.eqb (id role) (selectedRole st)) (roles st))
    as [found|] eqn:E.
  - pose proof (find_some _ _ E) as [Hin Heq]. repeat split.
    + discriminate.
    + intros Hnil. rewrite Hnil in Hin. destruct Hin.
    + intros role H. injection H as <-. exact Hin.
    + intros Hk. exfalso.
      assert (Hk' : known st (selectedRole st) = true).
      { apply known_exists. exists found. apply String.eqb_eq in Heq. auto. }
      congruence.
  - repeat split.
    + destruct (roles st); [reflexivity | discriminate].
    + intros ->. reflexivity.
    + intros role H. destruct (roles st) as [|first rest]; [discriminate|].
      injection H as <-. left; reflexivity.
Qed.

End RoleSelectionFacts.

Module UploadPageFacts.
Import UploadPage.

Lemma incomplete_dec (before : PageState) : incomplete before \/ ~ incomplete before.
Proof.
  unfold incomplete.
  destruct (String.eqb_spec (uploadType before) "file") as [Hf | Hf];
    [destruct (file before) as [picked|] | destruct (String.eqb_spec (repoUrl before) "")];
    try (left; tauto); right; intros [[? ?] | [? ?]]; congruence.
Qed.

Lemma handleSubmit_incomplete (post : Transport) (before : PageState) :
  incomplete before ->
  exists message,
    handleSubmit post before = rejectForm before message /\ message <> "".
Proof.
  unfold incomplete, handleSubmit. intros [[Hf Hnone] | [Hf Hurl]].
  - rewrite Hf, Hnone. simpl. eexists; split; [reflexivity | discriminate].
  - destruct (String.eqb_spec (uploadType before) "file"); [contradiction|].
    rewrite Hurl. simpl. eexists; split; [reflexivity | discriminate].
Qed.

(** The request a complete form stands for. *)
Lemma handleSubmit_complete (post : Transport) (before : PageState) :
  ~ incomplete before ->
  exists request name' uploadType',
    handleSubmit post before = send post before request name' uploadType'
    /\ match request with
       | Upload url picked =>
           url = "/api/upload" /\ uploadType before = "file"
           /\ file before = Some picked /\ request = uploadCodebase picked
       | Clone url repo_url cloneBranch =>
           url = "/api/clone" /\ uploadType before <> "file"
           /\ repo_url = repoUrl before /\ repo_url <> "" /\ cloneBranch <> ""
           /\ request = cloneRepository (repoUrl before)
                          (if String.eqb (branch before) "" then None
                           else Some (branch before))
       end.
Proof.
  unfold incomplete, handleSubmit. intros Hc.
  destruct (String.eqb_spec (uploadType before) "file") as [Hf | Hf].
  - destruct (file before) as [picked|] eqn:E; [|exfalso; apply Hc; tauto].
    do 3 eexists. split; [reflexivity|]. simpl. auto.
  - destruct (String.eqb_spec (repoUrl before) "") as [Hurl | Hurl];
      [exfalso; apply Hc; tauto|].
    do 3 eexists. split; [reflexivity|]. simpl.
    unfold cloneRepository.
    destruct (String.eqb_spec (branch before) "") as [Hb | Hb]; simpl;
      repeat split; try assumption; discriminate.
Qed.

Lemma send_requests (post : Transport) (before : PageState) (request : Request)
    (name' uploadType' : string) :
  requests (send post before request name' uploadType') = [request]
  /\ isLoading (page (send post before request name' uploadType')) = false.
Proof. unfold send. destruct (post request); split; reflexivity. Qed.

(** X6: a submit of an incomplete form (no file picked, or no repository URL)
    sends no request, makes no call on the codebase context and navigates
    nowhere; it only shows a message.  A complete form sends exactly one
    request: the picked file to /api/upload, or the URL and a branch that
    is never empty to /api/clone, as uploadCodebase and cloneRepository of
    services/api.js would build it.  Either way isLoading ends false. *)
Theorem submit_sends_one_request_or_none (post : Transport) (before : PageState) :
  let s := handleSubmit post before in
  isLoading (page s) = false
  /\ (requests s = [] <-> incomplete before)
  /\ (incomplete before ->
        calls s = [] /\ navigated s = None /\ error (page s) <> "")
  /\ (~ incomplete before ->
        exists request,
          requests s = [request]
          /\ match request with
             | Upload url picked =>
                 file before = Some picked /\ request = uploadCodebase picked
             | Clone url repo_url cloneBranch =>
                 repo_url <> "" /\ cloneBranch <> ""
                 /\ request = cloneRepository (repoUrl before)
                                (if String.eqb (branch before) "" then None
                                 else Some (branch before))
             end).
Proof.
  simpl. destruct (incomplete_dec before) as [Hi | Hc].
  - destruct (handleSubmit_incomplete post before Hi) as (message & -> & Hm).
    simpl. split; [reflexivity|]. split; [tauto|]. split; [auto|]. contradiction.
  - destruct (handleSubmit_complete post before Hc)
      as (request & name' & uploadType' & -> & Hreq).
    destruct (send_requests post before request name' uploadType') as [Hr Hl].
    rewrite Hr, Hl. split; [reflexivity|].
    split; [split; [discriminate | contradiction]|].
    split; [contradiction|].
    intros _. exists request. split; [reflexivity|].
    destruct request; tauto.
Qed.

Lemma replay_app (calls1 calls2 : list CodebaseContext.Call) : forall history,
  CodebaseContext.replay history (calls1 ++ calls2)
  = CodebaseContext.replay (CodebaseContext.replay history calls1) calls2.
Proof.
  induction calls1 as [|call rest IH]; intros history; simpl; [reflexivity|].
  apply IH.
Qed.

Lemma replay_nonempty (calls : list CodebaseContext.Call) : forall history,
  history <> [] -> CodebaseContext.replay history calls <> [].
Proof.
  induction calls as [|call rest IH]; intros history Hne; simpl; [exact Hne|].
  apply IH. discriminate.
Qed.

(** The record left by the two calls of a submit made after [previous]. *)
Lemma current_after_submit (previous : list CodebaseContext.Call)
    (name' uploadType' : string) (outcome : string + string) :
  CodebaseContext.current
    (previous ++ CodebaseContext.handleSubmit name' uploadType' outcome)
  = CodebaseContext.perform (CodebaseContext.current previous)
      match outcome with
      | inl codebase_id => CodebaseContext.UploadComplete codebase_id
      | inr detail => CodebaseContext.UploadError detail
      end.
Proof.
  unfold CodebaseContext.current. rewrite replay_app.
  pose proof (replay_nonempty previous [CodebaseContext.initialCodebase]) as Hne.
  destruct (CodebaseContext.replay [CodebaseContext.initialCodebase] previous)
    as [|latest older]; [exfalso; apply Hne; [discriminate | reflexivity]|].
  reflexivity.
Qed.

(** X7: after a complete form is submitted, following any earlier calls, the
    submit ends in exactly one of two ways.  It navigates to /results/ and
    the returned id, and the stored record has that id and status
    processing, with no message on the page; or it navigates nowhere, the
    stored record has status error, and the page and the record carry the
    same non-empty message. *)
Theorem submit_success_or_same_message
    (post : Transport) (before : PageState) (previous : list CodebaseContext.Call) :
  ~ incomplete before ->
  let s := handleSubmit post before in
  let codebase := CodebaseContext.current (previous ++ calls s) in
  match navigated s with
  | Some route =>
      exists codebase_id,
        route = ("/results/" ++ codebase_id)%string
        /\ CodebaseContext.id codebase = Some codebase_id
        /\ CodebaseContext.status codebase = "processing"
        /\ error (page s) = ""
  | None =>
      CodebaseContext.status codebase = "error"
      /\ CodebaseContext.error codebase = Some (error (page s))
      /\ error (page s) <> ""
  end.
Proof.
  intros Hc. simpl.
  destruct (handleSubmit_complete post before Hc)
    as (request & name' & uploadType' & -> & _).
  unfold send. destruct (post request) as [codebase_id | err]; simpl.
  - exists codebase_id. rewrite current_after_submit. simpl. auto.
  - rewrite current_after_submit. simpl. repeat split.
    apply ResultsPageFacts.orDefault_nonempty. discriminate.
Qed.

Lemma submit_success_or_same_message_witness :
  let before := handleFileChange [ {| fileName := "project.zip" |} ] initialPage in
  let s := handleSubmit (fun _ => Fulfilled "cb-1") before in
  ~ incomplete before
  /\ navigated s = Some "/results/cb-1"
  /\ CodebaseContext.status (CodebaseContext.current (calls s)) = "processing".
Proof.
  intros before s.
  assert (Hc : ~ incomplete before).
  { unfold incomplete. simpl. intros [[_ H] | [H _]]; [discriminate H | apply H; reflexivity]. }
  split; [exact Hc|]. split; [reflexivity|].
  destruct (submit_success_or_same_message (fun _ => Fulfilled "cb-1") before [] Hc)
    as (codebase_id & _ & _ & Hstatus & _).
  exact Hstatus.
Defined.

(** X8: a submit writes the new name and upload type with startUpload, but the
    call that follows the request spreads the record captured before the
    submit: in the record the submit leaves behind, name, uploadType and
    insights are those from before the submit, whatever was uploaded. *)
Theorem submit_keeps_previous_name
    (post : Transport) (before : PageState) (previous : list CodebaseContext.Call) :
  ~ incomplete before ->
  let s := handleSubmit post before in
  let codebase := CodebaseContext.current (previous ++ calls s) in
  CodebaseContext.name codebase = CodebaseContext.name (CodebaseContext.current previous)
  /\ CodebaseContext.uploadType codebase
     = CodebaseContext.uploadType (CodebaseContext.current previous)
  /\ CodebaseContext.insights codebase
     = CodebaseContext.insights (CodebaseContext.current previous).
Proof.
  intros Hc. simpl.
  destruct (handleSubmit_complete post before Hc)
    as (request & name' & uploadType' & -> & _).
  unfold send. destruct (post request) as [codebase_id | err]; simpl;
    rewrite current_after_submit; simpl; repeat split.
Qed.

Lemma submit_keeps_previous_name_witness :
  let before := handleFileChange [ {| fileName := "project.zip" |} ] initialPage in
  let s := handleSubmit (fun _ => Fulfilled "cb-1") before in
  ~ incomplete before
  /\ CodebaseContext.name (CodebaseContext.current (calls s)) = ""
  /\ CodebaseContext.uploadType (CodebaseContext.current (calls s)) = None.
Proof.
  intros before s.
  assert (Hc : ~ incomplete before).
  { unfold incomplete. simpl. intros [[_ H] | [H _]]; [discriminate H | apply H; reflexivity]. }
  split; [exact Hc|].
  destruct (submit_keeps_previous_name (fun _ => Fulfilled "cb-1") before [] Hc)
    as (Hname & Htype & _).
  split; [exact Hname | exact Htype].
Defined.

End UploadPageFacts.

Module FolderTreeFacts.
Import FolderTree.

Lemma hasSlash_currentPath (path name : string) :
  hasSlash (currentPath path name) = true.
Proof.
  unfold currentPath. induction path as [|c rest IH]; simpl.
  - reflexivity.
  - rewrite IH. apply orb_true_r.
Qed.

Lemma inherited_no_slash (s : string) :
  InsightDisplay.inherited s = true -> hasSlash s = false.
Proof.
  unfold InsightDisplay.inherited. rewrite orb_true_iff, existsb_exists.
  intros [H | (k & Hin & H)]; apply String.eqb_eq in H; subst s.
  - reflexivity.
  - simpl in Hin.
    repeat (destruct Hin as [<- | Hin]; [reflexivity|]). destruct Hin.
Qed.

Lemma currentPath_not_inherited (path name : string) :
  InsightDisplay.inherited (currentPath path name) = false.
Proof.
  destruct (InsightDisplay.inherited (currentPath path name)) eqn:E; [|reflexivity].
  apply inherited_no_slash in E. rewrite hasSlash_currentPath in E. discriminate E.
Qed.

Lemma toggles_S (n : nat) (path : string) (stored : gmap string bool) :
  toggles (S n) path stored = toggleExpand (toggles n path stored) path.
Proof. reflexivity. Qed.

Lemma toggles_flag (n : nat) (path name : string) (stored : gmap string bool) :
  stored !! currentPath path name = None ->
  toggles (S n) (currentPath path name) stored !! currentPath path name
  = Some (Nat.even n).
Proof.
  intros Hfresh. induction n as [|n IH].
  - unfold toggles; simpl. unfold toggleExpand, negatedFlag.
    rewrite lookup_insert_eq, Hfresh, currentPath_not_inherited. reflexivity.
  - rewrite toggles_S. unfold toggleExpand at 1, negatedFlag.
    rewrite lookup_insert_eq, IH. rewrite Nat.even_succ, <- Nat.negb_even.
    reflexivity.
Qed.

Lemma toggles_other (n : nat) (path other : string) (stored : gmap string bool) :
  path <> other -> toggles n path stored !! other = stored !! other.
Proof.
  intros Hne. induction n as [|n IH]; [reflexivity|].
  rewrite toggles_S. unfold toggleExpand. rewrite lookup_insert_ne by exact Hne.
  exact IH.
Qed.

(** X9: a row that was never toggled is drawn expanded, and its first click
    stores [true], so it is still expanded: after n clicks the row is
    collapsed exactly when n is even and not 0.  Clicks on one row leave
    the stored flags of all other rows alone. *)
Theorem first_click_does_not_collapse
    (stored : gmap string bool) (path name : string) (n : nat) :
  stored !! currentPath path name = None ->
  isExpanded (toggles n (currentPath path name) stored) (currentPath path name)
  = Nat.eqb n 0 || Nat.odd n
  /\ forall other,
       other <> currentPath path name ->
       toggles n (currentPath path name) stored !! other = stored !! other.
Proof.
  intros Hfresh. split.
  - destruct n as [|n].
    + unfold toggles, isExpanded; simpl. rewrite Hfresh. reflexivity.
    + unfold isExpanded. rewrite (toggles_flag n path name stored Hfresh).
      change (Nat.eqb (S n) 0) with false. rewrite orb_false_l, Nat.odd_succ.
      destruct (Nat.even n); reflexivity.
  - intros other Hne. apply toggles_other. congruence.
Qed.

Lemma first_click_does_not_collapse_witness :
  isExpanded (toggles 1 (currentPath "/insightAI" "frontend") ∅)
             (currentPath "/insightAI" "frontend") = true
  /\ isExpanded (toggles 2 (currentPath "/insightAI" "frontend") ∅)
                (currentPath "/insightAI" "frontend") = false.
Proof.
  split.
  - exact (proj1 (first_click_does_not_collapse ∅ "/insightAI" "frontend" 1
                    (lookup_empty _))).
  - exact (proj1 (first_click_does_not_collapse ∅ "/insightAI" "frontend" 2
                    (lookup_empty _))).
Defined.

Lemma Node_induction (P : Node -> Prop) :
  (forall name type, P (MkNode name type None)) ->
  (forall name type nodes, Forall P nodes -> P (MkNode name type (Some nodes))) ->
  forall node, P node.
Proof.
  intros Hfile Hdir. fix IH 1. intros [name type [nodes|]].
  - apply Hdir. revert nodes. fix IHnodes 1. intros [|child rest].
    + constructor.
    + constructor; [apply IH | apply IHnodes].
  - apply Hfile.
Qed.

Lemma isExpanded_nothingCollapsed (stored : gmap string bool) (path : string) :
  nothingCollapsed stored -> isExpanded stored path = true.
Proof.
  intros Hn. unfold isExpanded. specialize (Hn path).
  destruct (stored !! path) as [[|]|]; congruence.
Qed.

Lemma flat_map_rows (stored : gmap string bool) (limit : Z) (here : string)
    (depth : nat) (nodes : list Node) :
  Forall (fun node => forall path depth',
            exists row, renderTreeNode stored limit node path depth' = Some row
                        /\ rowPaths row = nodePaths node path) nodes ->
  flat_map (fun child => match child with
                         | Some r => rowPaths r
                         | None => []
                         end)
           (map (fun child => renderTreeNode stored limit child here depth) nodes)
  = flat_map (fun child => nodePaths child here) nodes.
Proof.
  induction 1 as [|node rest Hnode _ IH]; simpl; [reflexivity|].
  destruct (Hnode here depth) as (row & -> & ->). rewrite IH. reflexivity.
Qed.

(** X10: while no row has been collapsed, the tree is drawn in full whatever the
    depth limit is: every node is rendered (none is [null]), and the rows
    drawn are exactly the paths of the node and of everything below it. *)
Theorem depth_limit_hides_nothing_until_collapsed
    (stored : gmap string bool) (limit : Z) (node : Node) (path : string) (depth : nat) :
  nothingCollapsed stored ->
  exists row,
    renderTreeNode stored limit node path depth = Some row
    /\ rowPaths row = nodePaths node path.
Proof.
  intros Hn. revert path depth.
  induction node as [name type | name type nodes IH] using Node_induction;
    intros path depth; simpl;
    rewrite (isExpanded_nothingCollapsed stored _ Hn), andb_false_r.
  - eexists. split; [reflexivity|]. simpl.
    destruct (String.eqb type "directory"); reflexivity.
  - eexists. split; [reflexivity|]. simpl.
    destruct (String.eqb type "directory"); simpl; [|reflexivity].
    f_equal. apply flat_map_rows, IH.
Qed.

Lemma depth_limit_hides_nothing_until_collapsed_witness :
  nothingCollapsed ∅
  /\ exists row,
       FolderTree "" (Some (Payload.CNumber 1)) ∅ = Some row
       /\ length (rowPaths row) = 26.
Proof.
  assert (Hn : nothingCollapsed ∅).
  { intros path. rewrite lookup_empty. discriminate. }
  split; [exact Hn|].
  destruct (depth_limit_hides_nothing_until_collapsed
              ∅ (maxDepth (Some (Payload.CNumber 1))) mockTree "" 0 Hn)
    as (row & Hrow & Hpaths).
  exists row. split; [exact Hrow|]. rewrite Hpaths. reflexivity.
Defined.

(** X11: two clicks on a row that was never toggled collapse it.  At a depth
    within the limit it is then drawn without its children, with the
    right-pointing arrow if it is a folder with children; deeper than the
    limit it is not drawn at all, so its button is gone too. *)
Theorem collapsed_row_below_limit_disappears
    (stored : gmap string bool) (limit : Z) (name type : string)
    (children : option (list Node)) (path : string) (depth : nat) :
  stored !! currentPath path name = None ->
  renderTreeNode (toggles 2 (currentPath path name) stored) limit
                 (MkNode name type children) path depth
  = if Z.ltb limit (Z.of_nat depth) then None
    else Some (MkRow (currentPath path name) (String.eqb type "directory")
                 (if String.eqb type "directory" && hasChildren children
                  then Some false else None)
                 None).
Proof.
  intros Hfresh. simpl.
  pose proof (toggles_flag 1 path name stored Hfresh) as Hflag. simpl in Hflag.
  unfold isExpanded. rewrite Hflag. simpl.
  rewrite andb_true_r, andb_false_r. reflexivity.
Qed.

Lemma collapsed_row_below_limit_disappears_witness :
  renderTreeNode (toggles 2 (currentPath "/insightAI/frontend" "src") ∅)
                 (maxDepth (Some (Payload.CNumber 1)))
                 (directory "src" [fileNode "App.jsx"]) "/insightAI/frontend" 2
  = None.
Proof.
  exact (collapsed_row_below_limit_disappears
           ∅ (maxDepth (Some (Payload.CNumber 1))) "src" "directory"
           (Some [fileNode "App.jsx"]) "/insightAI/frontend" 2 (lookup_empty _)).
Defined.

End FolderTreeFacts.

Module InsightDisplayFacts.
Import InsightDisplay.

Lemma reduce_groups (entries : list (string * Payload.Insight)) :
  forall acc : gmap string (list Item),
    (forall type, is_Some (acc !! type) -> inherited type = false) ->
    match reduce entries acc with
    | None =>
        exists entry, In entry entries /\ inherited (typeOf (snd entry)) = true
    | Some groups =>
        (forall entry, In entry entries -> inherited (typeOf (snd entry)) = false)
        /\ forall type, groups !! type = grown (acc !! type) (ofType type entries)
    end.
Proof.
  induction entries as [|entry rest IH]; intros acc Hacc; simpl.
  - split; [intros entry []|]. intros type. unfold ofType; simpl.
    destruct (acc !! type); simpl; [rewrite app_nil_r|]; reflexivity.
  - unfold addInsight, read.
    destruct (acc !! typeOf (snd entry)) as [items|] eqn:E.
    + assert (Hok : inherited (typeOf (snd entry)) = false)
        by (apply Hacc; rewrite E; eauto).
      specialize (IH (<[typeOf (snd entry) := items ++ [entry]]> acc)).
      destruct (reduce rest _) as [groups|].
      * destruct IH as [Hrest Hgroups].
        { intros type [l Hl]. destruct (decide (typeOf (snd entry) = type)) as [<- | Hne];
            [exact Hok|]. rewrite lookup_insert_ne in Hl by exact Hne.
          apply Hacc. eauto. }
        split; [intros e [<- | He]; [exact Hok | apply Hrest, He]|].
        intros type. rewrite Hgroups. unfold ofType; simpl.
        destruct (String.eqb_spec (typeOf (snd entry)) type) as [<- | Hne].
        -- rewrite lookup_insert_eq, E. simpl. rewrite <- app_assoc. reflexivity.
        -- rewrite lookup_insert_ne by exact Hne. reflexivity.
      * destruct IH as (e & He & Hinh).
        { intros type [l Hl]. destruct (decide (typeOf (snd entry) = type)) as [<- | Hne];
            [exact Hok|]. rewrite lookup_insert_ne in Hl by exact Hne.
          apply Hacc. eauto. }
        exists e. split; [right; exact He | exact Hinh].
    + destruct (inherited (typeOf (snd entry))) eqn:Hinh.
      * exists entry. split; [left; reflexivity | exact Hinh].
      * specialize (IH (<[typeOf (snd entry) := [entry]]> acc)).
        destruct (reduce rest _) as [groups|].
        -- destruct IH as [Hrest Hgroups].
           { intros type [l Hl].
             destruct (decide (typeOf (snd entry) = type)) as [<- | Hne];
               [exact Hinh|]. rewrite lookup_insert_ne in Hl by exact Hne.
             apply Hacc. eauto. }
           split; [intros e [<- | He]; [exact Hinh | apply Hrest, He]|].
           intros type. rewrite Hgroups. unfold ofType; simpl.
           destruct (String.eqb_spec (typeOf (snd entry)) type) as [<- | Hne].
           ++ rewrite lookup_insert_eq, E. reflexivity.
           ++ rewrite lookup_insert_ne by exact Hne. reflexivity.
        -- destruct IH as (e & He & Hinh').
           { intros type [l Hl].
             destruct (decide (typeOf (snd entry) = type)) as [<- | Hne];
               [exact Hinh|]. rewrite lookup_insert_ne in Hl by exact Hne.
             apply Hacc. eauto. }
           exists e. split; [right; exact He | exact Hinh'].
Qed.

(** X12: groupedInsights puts every insight into exactly one group, that of its
    task_type, or "other" when the task_type is empty: the group of a type
    holds the insights of that type in their order, and a type without
    insights has no group, so the object has no keys (the "No specific
    insights" box) exactly when there are no insights.  It throws instead
    when, and only when, the type of some insight is a property name of
    Object.prototype. *)
Theorem groupedInsights_partitions (insights : list (string * Payload.Insight)) :
  match groupedInsights insights with
  | None =>
      exists entry, In entry insights /\ inherited (typeOf (snd entry)) = true
  | Some groups =>
      (forall entry, In entry insights -> inherited (typeOf (snd entry)) = false)
      /\ (forall type,
            groups !! type =
              match ofType type insights with
              | [] => None
              | items => Some items
              end)
      /\ (groups = ∅ <-> insights = [])
  end.
Proof.
  unfold groupedInsights.
  pose proof (reduce_groups insights ∅) as H.
  destruct (reduce insights ∅) as [groups|].
  - destruct H as [Hok Hgroups].
    { intros type [l Hl]. rewrite lookup_empty in Hl. discriminate Hl. }
    assert (Hlookup : forall type,
              groups !! type = match ofType type insights with
                               | [] => None
                               | items => Some items
                               end).
    { intros type. rewrite Hgroups, lookup_empty. simpl.
      destruct (ofType type insights); reflexivity. }
    split; [exact Hok|]. split; [exact Hlookup|]. split.
    + intros ->. destruct insights as [|entry rest]; [reflexivity|].
      specialize (Hlookup (typeOf (snd entry))). rewrite lookup_empty in Hlookup.
      unfold ofType in Hlookup. simpl in Hlookup.
      rewrite String.eqb_refl in Hlookup. discriminate Hlookup.
    + intros ->. apply map_eq. intros type. rewrite Hlookup. reflexivity.
  - apply H. intros type [l Hl]. rewrite lookup_empty in Hl. discriminate Hl.
Qed.

Example groupedInsights_of_the_mock :
  groupedInsights (Payload.insights ResultsPage.mockInsights)
  = Some (list_to_map
            [ ("structure", ofType "structure" (Payload.insights ResultsPage.mockInsights));
              ("dependencies",
               ofType "dependencies" (Payload.insights ResultsPage.mockInsights));
              ("technology",
               ofType "technology" (Payload.insights ResultsPage.mockInsights)) ]).
Proof. vm_compute. reflexivity. Qed.

Example groupedInsights_throws_on_inherited_type :
  groupedInsights
    [ ("naming", {| Payload.question := "How are things named?";
                    Payload.answer := "Consistently.";
                    Payload.task_type := "constructor" |}) ]
  = None.
Proof. reflexivity. Qed.

End InsightDisplayFacts.

Module ResultsGridFacts.
Import ResultsGrid.

Lemma length_substring_0 (m : nat) : forall s : string,
  String.length (String.substring 0 m s) = Nat.min m (String.length s).
Proof.
  induction m as [|m IH]; intros [|c s]; simpl; try reflexivity.
  rewrite IH. reflexivity.
Qed.

Lemma substring_all (m : nat) : forall s : string,
  String.length s <= m -> String.substring 0 m s = s.
Proof.
  induction m as [|m IH]; intros [|c s]; simpl; intros Hle; try reflexivity.
  - lia.
  - rewrite IH by lia. reflexivity.
Qed.

Lemma length_append (s1 s2 : string) :
  String.length (s1 ++ s2) = String.length s1 + String.length s2.
Proof. induction s1 as [|c s1 IH]; simpl; [reflexivity | rewrite IH; reflexivity]. Qed.

(** X14: the preview of a placeholder is never longer than 103 characters, and
    the ellipsis says nothing about cutting: data of at most a hundred
    characters is shown whole and still followed by the three dots. *)
Theorem preview_is_bounded (viz : Payload.VisualizationEntry) :
  String.length (preview (VisualizationPlaceholder viz))
  = Nat.min 100 (String.length (Payload.data viz)) + 3
  /\ String.length (preview (VisualizationPlaceholder viz)) <= 103
  /\ (String.length (Payload.data viz) <= 100 ->
      preview (VisualizationPlaceholder viz) = (Payload.data viz ++ "...")%string).
Proof.
  unfold VisualizationPlaceholder; cbn [preview].
  rewrite length_append, length_substring_0.
  change (String.length "...") with 3.
  split; [reflexivity|]. split; [lia|].
  intros Hle. rewrite substring_all by exact Hle. reflexivity.
Qed.

Lemma cardVisualizations_filter (visualizations : list Payload.VisualizationEntry)
    (entry : string * Payload.Insight) :
  cardVisualizations (card visualizations entry)
  = map VisualizationPlaceholder
        (List.filter (fun v => String.eqb (Payload.task_id v) (fst entry)) visualizations).
Proof.
  unfold card; cbn [cardVisualizations].
  destruct (existsb _ visualizations) eqn:E; [reflexivity|].
  induction visualizations as [|v rest IH]; [reflexivity|].
  simpl in E |- *. apply orb_false_iff in E as [Ev Erest].
  rewrite Ev. apply IH, Erest.
Qed.

Lemma filter_split (key : string) (keys : list string)
    (visualizations : list Payload.VisualizationEntry) :
  ~ In key keys ->
  Permutation
    (List.filter (fun v => existsb (String.eqb (Payload.task_id v)) (key :: keys))
                 visualizations)
    (List.filter (fun v => String.eqb (Payload.task_id v) key) visualizations
     ++ List.filter (fun v => existsb (String.eqb (Payload.task_id v)) keys)
                    visualizations).
Proof.
  intros Hfresh. induction visualizations as [|v rest IH]; simpl; [reflexivity|].
  destruct (String.eqb_spec (Payload.task_id v) key) as [Heq | Hne]; simpl.
  - assert (Hout : existsb (String.eqb (Payload.task_id v)) keys = false).
    { destruct (existsb _ keys) eqn:E; [|reflexivity]. exfalso. apply Hfresh.
      apply existsb_exists in E as (k & Hin & Hk). apply String.eqb_eq in Hk.
      congruence. }
    rewrite Hout. apply perm_skip, IH.
  - destruct (existsb (String.eqb (Payload.task_id v)) keys).
    + rewrite IH. apply Permutation_middle.
    + exact IH.
Qed.

Lemma grid_visualizations (visualizations : list Payload.VisualizationEntry)
    (entries : list (string * Payload.Insight)) :
  NoDup (map fst entries) ->
  Permutation
    (concat (map cardVisualizations (map (card visualizations) entries)))
    (map VisualizationPlaceholder
         (List.filter (fun v => existsb (String.eqb (Payload.task_id v)) (map fst entries))
                      visualizations)).
Proof.
  induction entries as [|entry rest IH]; intros Hnd.
  - simpl. induction visualizations as [|v vs IHv]; [reflexivity | exact IHv].
  - cbn [map concat] in *.
    apply NoDup_cons in Hnd as [Hfresh Hnd]. rewrite list_elem_of_In in Hfresh.
    rewrite cardVisualizations_filter, (IH Hnd).
    rewrite (filter_split (fst entry) (map fst rest) visualizations Hfresh).
    rewrite map_app. reflexivity.
Qed.

(** X13: the grid has one card per insight, and when the keys of the insights
    are pairwise distinct, as the keys of an object are, every
    visualization whose task_id is the key of an insight is shown exactly
    once, on that insight's card; a visualization whose task_id matches no
    key is shown nowhere. *)
Theorem grid_shows_matched_visualizations_once (shown : Payload.InsightsData) :
  NoDup (map fst (Payload.insights shown)) ->
  map cardKey (insightsGrid shown) = map fst (Payload.insights shown)
  /\ Permutation (concat (map cardVisualizations (insightsGrid shown)))
                 (map VisualizationPlaceholder (matched shown))
  /\ forall c, In c (insightsGrid shown) ->
       cardVisualizations c
       = map VisualizationPlaceholder
             (InsightDisplay.getVisualizationsForInsight
                (Payload.visualizations shown) (cardKey c)).
Proof.
  intros Hnd. unfold insightsGrid, matched. split; [|split].
  - rewrite map_map. reflexivity.
  - apply grid_visualizations, Hnd.
  - intros c Hc. apply in_map_iff in Hc as (entry & <- & _).
    apply cardVisualizations_filter.
Qed.

Lemma grid_shows_matched_visualizations_once_witness :
  NoDup (map fst (Payload.insights ResultsPage.mockInsights))
  /\ map cardKey (insightsGrid ResultsPage.mockInsights)
     = ["project_structure"; "dependencies"; "tech_stack"]
  /\ length (concat (map cardVisualizations (insightsGrid ResultsPage.mockInsights))) = 2.
Proof.
  assert (Hnd : NoDup (map fst (Payload.insights ResultsPage.mockInsights))).
  { simpl. repeat (apply NoDup_cons_2; [rewrite list_elem_of_In; simpl; intuition discriminate|]).
    apply NoDup_nil_2. }
  destruct (grid_shows_matched_visualizations_once ResultsPage.mockInsights Hnd)
    as (Hkeys & Hperm & _).
  split; [exact Hnd|]. split; [exact Hkeys|].
  rewrite (Permutation_length Hperm). reflexivity.
Defined.

End ResultsGridFacts.
